(** * lstm_baseline.py: a shallow embedding and its verified properties

    The script trains an LSTM sequence classifier under a grid search.
    Python values are embedded as follows.
    - [int] is [Z]; lengths and counters that the code only ever increments
      from zero are [nat].
    - [float] is [pyfloat]: either NaN or an exact rational [Q].  The
      properties below concern order, counting and control flow, not
      rounding; infinities do not arise in the quantities they speak about.
      Equality of finite floats is read as [Qeq].
    - lists and one-dimensional tensors are [list]; a set of indices is a
      [gset Z]; the file system is a [gmap] from paths to node kinds.
    - a raised exception is the [Raise] branch of the result type [Res].
    - tensors hold rationals and are nested lists, outermost dimension
      first.
    - the tensor framework (LSTM cell, loss, autograd and optimiser, random
      permutations and initial weights) and the helpers imported from
      [utils] and [dataset] are abstract: they enter as the fields of the
      record [Framework]. *)

From Stdlib Require Import QArith Qminmax ZArith Lia Lqa.
From stdpp Require Import base list gmap strings.

Set Default Proof Using "Type".

(** ** Exceptions and the result monad *)

Inductive pyexc : Type :=
  | ZeroDivisionError
  | TypeError
  | ValueError
  | IndexError
  | KeyError
  | FileExistsError
  | FileNotFoundError
  | NotADirectoryError.

Inductive Res (A : Type) : Type :=
  | Ok (a : A)
  | Raise (e : pyexc).
Arguments Ok {A} a.
Arguments Raise {A} e.

#[global] Instance Res_ret : MRet Res := λ A a, Ok a.
#[global] Instance Res_bind : MBind Res := λ A B k m,
  match m with
  | Ok a => k a
  | Raise e => Raise e
  end.

(** A [for] loop over a list whose body may raise; the loop variables are
    the state [S]. *)
Fixpoint for_loop {S A} (body : S → A → Res S) (l : list A) (s : S) : Res S :=
  match l with
  | [] => Ok s
  | x :: l' => s' ← body s x; for_loop body l' s'
  end.

(** [range(a, b)] *)
Definition range (a b : Z) : list Z := seqZ a (b - a).

(** [enumerate(l)] *)
Definition enumerate {A} (l : list A) : list (Z * A) :=
  imap (λ i x, (Z.of_nat i, x)) l.

(** ** Python slicing *)

Module Py.

(** [norm_index n i]: how [slice.indices] places a bound into [0..n]. *)
Definition norm_index (n i : Z) : Z :=
  if (i <? 0)%Z then Z.max 0 (i + n) else Z.min i n.

(** [l[lo:hi]] with step 1. *)
Definition slice {A} (l : list A) (lo hi : Z) : list A :=
  let n := Z.of_nat (length l) in
  let lo' := norm_index n lo in
  let hi' := norm_index n hi in
  take (Z.to_nat (hi' - lo')) (drop (Z.to_nat lo') l).

(** [l[1:]] *)
Definition slice_from {A} (l : list A) (lo : Z) : list A :=
  drop (Z.to_nat (norm_index (Z.of_nat (length l)) lo)) l.

End Py.

(** ** dataset_iterator *)

Section DatasetIterator.
Context {A : Type}.

(** [random.shuffle]: the permutation the generator draws. *)
Variable random_shuffle : list A → list A.

(** The [while] loop of the generator; the result lists the batches in
    the order they are yielded.  [None] when the fuel is exhausted. *)
Fixpoint dataset_iterator_loop (fuel : nat) (dataset : list A)
    (batch_size count_sampled : Z) : option (list (list A)) :=
  match fuel with
  | O => None
  | S fuel' =>
      let n := Z.of_nat (length dataset) in
      if (count_sampled <? n)%Z then
        match dataset_iterator_loop fuel' dataset batch_size
                (count_sampled + batch_size) with
        | Some rest =>
            Some (Py.slice dataset count_sampled (count_sampled + batch_size)
                    :: rest)
        | None => None
        end
      else Some []
  end.

Definition dataset_iterator (fuel : nat) (dataset : list A)
    (batch_size : Z) (shuffle : bool) : option (list (list A)) :=
  let dataset := if shuffle then random_shuffle dataset else dataset in
  dataset_iterator_loop fuel dataset batch_size 0.

(** The list the batches are cut from. *)
Definition iterated_dataset (dataset : list A) (shuffle : bool) : list A :=
  if shuffle then random_shuffle dataset else dataset.

End DatasetIterator.

(** ceil(n / b) for positive b *)
Definition ceil_div (n b : Z) : Z := ((n + b - 1) / b)%Z.

(** ** Floats *)

Inductive pyfloat : Type :=
  | NaN
  | Fin (q : Q).

#[global] Instance Q_eq_dec : EqDecision Q.
Proof. solve_decision. Defined.

#[global] Instance pyfloat_eq_dec : EqDecision pyfloat.
Proof. solve_decision. Defined.

Definition Qltb (x y : Q) : bool := negb (Qle_bool y x).

Module Float.

Definition lift2 (f : Q → Q → Q) (a b : pyfloat) : pyfloat :=
  match a, b with
  | Fin x, Fin y => Fin (f x y)
  | _, _ => NaN
  end.

Definition add := lift2 Qplus.
Definition sub := lift2 Qminus.
Definition mul := lift2 Qmult.

(** [a > b]; false as soon as one side is NaN. *)
Definition gt (a b : pyfloat) : bool :=
  match a, b with
  | Fin x, Fin y => Qltb y x
  | _, _ => false
  end.

(** The builtin [max(a, b)]: keeps [a] unless [b > a]. *)
Definition max (a b : pyfloat) : pyfloat := if gt b a then b else a.

(** [a / n] for an [int] n: Python raises on a zero divisor. *)
Definition truediv (a : pyfloat) (n : Z) : Res pyfloat :=
  if (n =? 0)%Z then Raise ZeroDivisionError
  else Ok (lift2 Qdiv a (Fin (inject_Z n))).

(** [sum] and [mean] of an array of floats; the mean of an empty array
    is NaN. *)
Definition sum (l : list pyfloat) : pyfloat := foldl add (Fin 0) l.

Definition mean (l : list pyfloat) : pyfloat :=
  match l with
  | [] => NaN
  | _ => lift2 Qdiv (sum l) (Fin (inject_Z (Z.of_nat (length l))))
  end.

(** Same float value. *)
Definition eq (a b : pyfloat) : Prop :=
  match a, b with
  | NaN, NaN => True
  | Fin x, Fin y => (x == y)%Q
  | _, _ => False
  end.

(** [a < b] between finite floats. *)
Definition lt (a b : pyfloat) : Prop :=
  match a, b with
  | Fin x, Fin y => (x < y)%Q
  | _, _ => False
  end.

(** [a <= b] between finite floats. *)
Definition le (a b : pyfloat) : Prop :=
  match a, b with
  | Fin x, Fin y => (x <= y)%Q
  | _, _ => False
  end.

End Float.

(** ** Tensors *)

#[global] Instance Q_inhabited : Inhabited Q := populate 0%Q.

Abbreviation T1 := (list Q).
Abbreviation T2 := (list (list Q)).
Abbreviation T3 := (list (list (list Q))).

Module Tensor.

(** [Y.float()] for an integer tensor. *)
Definition float (y : list Z) : T1 := inject_Z <$> y.

(** [t.mean().item()] *)
Definition mean (t : T1) : pyfloat := Float.mean (Fin <$> t).

Definition Qsum (l : list Q) : Q := foldr Qplus 0%Q l.

Definition dot (u v : list Q) : Q := Qsum (zip_with Qmult u v).

(** [m.mean(0)] of an (L, H) matrix with L >= 1: the mean of each of the
    H columns.  The width H is read off the first row, so an empty
    matrix, whose width a list does not record, gives the empty vector. *)
Definition mean_rows (m : T2) : T1 :=
  match m with
  | [] => []
  | r0 :: _ =>
      (λ j, Qsum ((λ r, r !!! j) <$> m) / inject_Z (Z.of_nat (length m)))%Q
        <$> seq 0 (length r0)
  end.

(** [t.mean(1)] of a (B, L, H) tensor. *)
Definition mean1 (t : T3) : T2 := mean_rows <$> t.

(** Index of the first maximum of a row, as [t.max(dim=1)] returns it. *)
Fixpoint argmax_from (best_i : Z) (best : Q) (i : Z) (row : list Q) : Z :=
  match row with
  | [] => best_i
  | x :: row' =>
      if Qltb best x then argmax_from i x (i + 1) row'
      else argmax_from best_i best (i + 1) row'
  end.

Definition argmax (row : list Q) : Z :=
  match row with
  | [] => 0
  | x :: row' => argmax_from 0 x 1 row'
  end.

(** [pred.eq(ys).sum().item()] *)
Definition eq_count (pred ys : list Z) : Z :=
  Z.of_nat (length (filter (λ p, p.1 = p.2) (zip pred ys))).

End Tensor.

(** ** The file system, as [os] and [os.path] see it *)

(** A path relative to the working directory, one component per element;
    [[]] is the working directory itself. *)
Abbreviation path := (list string).

Inductive node : Type :=
  | Dir
  | File.

#[global] Instance node_eq_dec : EqDecision node.
Proof. solve_decision. Defined.

Module Os.

Abbreviation fs := (gmap path node).

Definition join (p : path) (name : string) : path := p ++ [name].

Definition exists_ (p : path) (m : fs) : bool :=
  match p with
  | [] => true
  | _ => bool_decide (is_Some (m !! p))
  end.

Definition isdir (p : path) (m : fs) : bool :=
  match p with
  | [] => true
  | _ => bool_decide (m !! p = Some Dir)
  end.

Definition isfile (p : path) (m : fs) : bool :=
  bool_decide (m !! p = Some File).

(** [os.mkdir], on the path given last component first. *)
Definition mkdir_rev (rp : path) (m : fs) : Res fs :=
  match rp with
  | [] => Raise FileExistsError
  | _ :: rhead =>
      let p := reverse rp in
      let head := reverse rhead in
      if exists_ p m then Raise FileExistsError
      else if isdir head m then Ok (<[p := Dir]> m)
      else if exists_ head m then Raise NotADirectoryError
      else Raise FileNotFoundError
  end.

(** [os.makedirs(name, exist_ok)]: creates the missing ancestors first
    (a [FileExistsError] from that recursive call is swallowed; it guards
    against a concurrent writer and does not arise here), then the leaf;
    an error on the leaf is swallowed only when [exist_ok] is set and the
    leaf is a directory. *)
Fixpoint makedirs_rev (rp : path) (exist_ok : bool) (m : fs) : Res fs :=
  match rp with
  | [] => mkdir_rev rp m
  | _ :: rhead =>
      let head := reverse rhead in
      m1 ← (match rhead with
            | [] => Ok m
            | _ :: _ =>
                if exists_ head m then Ok m
                else match makedirs_rev rhead exist_ok m with
                     | Raise FileExistsError => Ok m
                     | r => r
                     end
            end);
      match mkdir_rev rp m1 with
      | Ok m2 => Ok m2
      | Raise e =>
          if negb exist_ok || negb (isdir (reverse rp) m1) then Raise e
          else Ok m1
      end
  end.

Definition makedirs (p : path) (exist_ok : bool) (m : fs) : Res fs :=
  makedirs_rev (reverse p) exist_ok m.

End Os.

(** ** Hyperparameters *)

(** The [argparse] namespace. *)
Record Args : Type := {
  dataset : string;
  lr : pyfloat;
  num_epochs : Z;
  num_lstm_layers : Z;
  num_linear_layers : Z;
  hidden_size : Z;
  dropout : pyfloat;
  batch_size : Z;
  debug : Z;
  test_on_train : Z;
  verbose : Z;
  cap_len : Z;
  exp_name : string
}.

(** The defaults declared on the parser. *)
Definition parser_defaults (dataset : string) : Args := {|
  dataset := dataset;
  lr := Fin (1 # 100);
  num_epochs := 150;
  num_lstm_layers := 2;
  num_linear_layers := 1;
  hidden_size := 12;
  dropout := Fin (1 # 2);
  batch_size := 32;
  debug := 1;
  test_on_train := 1;
  verbose := 0;
  cap_len := 40;
  exp_name := "LSTM_default"
|}.

Definition set_batch_size (v : Z) (a : Args) : Args :=
  {| dataset := dataset a; lr := lr a; num_epochs := num_epochs a;
     num_lstm_layers := num_lstm_layers a;
     num_linear_layers := num_linear_layers a; hidden_size := hidden_size a;
     dropout := dropout a; batch_size := v; debug := debug a;
     test_on_train := test_on_train a; verbose := verbose a;
     cap_len := cap_len a; exp_name := exp_name a |}.

Definition set_lr (v : pyfloat) (a : Args) : Args :=
  {| dataset := dataset a; lr := v; num_epochs := num_epochs a;
     num_lstm_layers := num_lstm_layers a;
     num_linear_layers := num_linear_layers a; hidden_size := hidden_size a;
     dropout := dropout a; batch_size := batch_size a; debug := debug a;
     test_on_train := test_on_train a; verbose := verbose a;
     cap_len := cap_len a; exp_name := exp_name a |}.

Definition set_hidden_size (v : Z) (a : Args) : Args :=
  {| dataset := dataset a; lr := lr a; num_epochs := num_epochs a;
     num_lstm_layers := num_lstm_layers a;
     num_linear_layers := num_linear_layers a; hidden_size := v;
     dropout := dropout a; batch_size := batch_size a; debug := debug a;
     test_on_train := test_on_train a; verbose := verbose a;
     cap_len := cap_len a; exp_name := exp_name a |}.


(** ** Datasets *)

(** One raw example [x_y]: the feature sequence [x_y[0]] and the array
    [x_y[1]] holding its label. *)
Abbreviation example := (T2 * list Z)%type.

(** What [__getitem__] returns, and what the loader collates it into. *)
Record Sample : Type := { sample_sequence : T2; sample_label : Z }.
Record Batch : Type := { sequence : T3; label : list Z }.

Record SeqDataset : Type := { X : T3; Y : list Z }.

Definition SeqDataset_len (d : SeqDataset) : Z := Z.of_nat (length (Y d)).

Definition SeqDataset_getitem (d : SeqDataset) (idx : nat) : Res Sample :=
  match X d !! idx, Y d !! idx with
  | Some x, Some y => Ok {| sample_sequence := x; sample_label := y |}
  | _, _ => Raise IndexError
  end.

(** ** The network *)

Module Nn.

Record LSTM : Type := {
  input_size : Z;
  hidden_size : Z;
  num_layers : Z;
  batch_first : bool;
  dropout : pyfloat;
  bidirectional : bool;
  parameters : list T2
}.

Record Linear : Type := {
  in_features : Z;
  out_features : Z;
  weight : T2;
  bias : T1
}.

Inductive layer : Type :=
  | LinearLayer (l : Linear)
  | ReLU.

Inductive reduction_mode : Type :=
  | ReductionNone
  | ReductionMean
  | ReductionSum.

Record CrossEntropyLoss : Type := { reduction : reduction_mode }.

Record Adam : Type := { adam_lr : pyfloat; adam_state : list T2 }.

End Nn.

Record LSTMClassifier : Type := {
  lstm : Nn.LSTM;
  linear : list Nn.layer;
  n_classes : Z;
  training : bool
}.

(** Which pass over a loader a permutation is drawn for. *)
Inductive iter_key : Type :=
  | IterEpoch (epoch : Z)
  | IterEval (global_step : Z).

(** ** What the script imports *)

Record Framework : Type := {
  (** [utils.preprocess_sequences_to_fixed_len]: the array of fixed-length
      sequences and the indices of the examples it dropped. *)
  preprocess_sequences_to_fixed_len : list example → Z → Z → T3 * gset Z;
  (** [utils.standardize_and_turn_tensor] *)
  standardize_and_turn_tensor : T3 → bool → T3;
  (** initial weights of [nn.LSTM(input_size, hidden_size, num_layers)] *)
  lstm_reset_parameters : Z → Z → Z → list T2;
  (** initial weight and bias of the k-th [nn.Linear(in, out)] of a model *)
  linear_reset_parameters : nat → Z → Z → T2 * T1;
  (** [nn.LSTM.forward] in training or evaluation mode: the output sequence
      of the last layer and the pair (h_n, c_n) *)
  lstm_forward : Nn.LSTM → bool → T3 → T3 * (T3 * T3);
  (** [nn.CrossEntropyLoss(reduction)(logits, ys).item()] *)
  cross_entropy : Nn.reduction_mode → T2 → list Z → pyfloat;
  (** [optim.zero_grad(); loss.backward(); optim.step()] on one batch: the
      optimiser and the new LSTM and linear weights *)
  adam_step :
    Nn.Adam → LSTMClassifier → Batch → Nn.Adam * (list T2 * list (T2 * T1));
  (** the order in which a shuffling loader visits [n] indices *)
  randperm : iter_key → nat → list nat
}.


(** ** Observable effects *)

(** The calls a run makes, in the order it makes them.  Of what the script
    prints, the log keeps the driver's progress line
    "Done {steps} / {total_steps}, perf is {perf}". *)
Inductive event : Type :=
  | EvTrain (args : Args) (model : LSTMClassifier)
  | EvMakedirs (p : path)
  | EvSummaryWriter (p : path)
  | EvModelTrain
  | EvModelEval
  | EvAddScalar (tag : string) (value : pyfloat) (step : Z)
  | EvPrintDone (steps total_steps : Z) (perf : pyfloat).

Record World : Type := { w_fs : gmap path node; w_log : list event }.

Definition emit (e : event) (w : World) : World :=
  {| w_fs := w_fs w; w_log := w_log w ++ [e] |}.

(** [os.makedirs(p)] *)
Definition os_makedirs (p : path) (w : World) : Res World :=
  m ← Os.makedirs p false (w_fs w);
  Ok (emit (EvMakedirs p) {| w_fs := m; w_log := w_log w |}).

(** [SummaryWriter(p)]: the writer makes sure its directory exists.  The
    event file it keeps inside is not part of the model; what is written to
    it appears as [EvAddScalar] events. *)
Definition SummaryWriter (p : path) (w : World) : Res World :=
  m ← Os.makedirs p true (w_fs w);
  Ok (emit (EvSummaryWriter p) {| w_fs := m; w_log := w_log w |}).

(** [np.concatenate] of one-dimensional arrays *)
Definition np_concatenate {A} (arrays : list (list A)) : Res (list A) :=
  match arrays with
  | [] => Raise ValueError
  | _ => Ok (concat arrays)
  end.

(** Truth value of an [int] *)
Definition truthy (n : Z) : bool := negb (n =? 0)%Z.

Section Script.
Context (fw : Framework).

(** ** seq_data_to_dataset *)

(** The list comprehension that selects the label arrays. *)
Definition retained_labels (seq_data : list example) (idx_removed : gset Z)
    : list (list Z) :=
  (λ p, p.2.2)
    <$> filter (λ p, p.1 ∉ idx_removed) (enumerate seq_data).

Definition seq_data_to_dataset (seq_data : list example)
    (cap_len num_features : Z) (standardize : bool) : Res SeqDataset :=
  let '(X, idx_removed) :=
    preprocess_sequences_to_fixed_len fw seq_data cap_len num_features in
  let X := standardize_and_turn_tensor fw X standardize in
  Y ← np_concatenate (retained_labels seq_data idx_removed);
  Ok {| X := X; Y := Y |}.

(** ** LSTMClassifier *)

Definition nn_LSTM (input_size hidden_size num_layers : Z) (batch_first : bool)
    (dropout : pyfloat) (bidirectional : bool) : Nn.LSTM :=
  {| Nn.input_size := input_size; Nn.hidden_size := hidden_size;
     Nn.num_layers := num_layers; Nn.batch_first := batch_first;
     Nn.dropout := dropout; Nn.bidirectional := bidirectional;
     Nn.parameters := lstm_reset_parameters fw input_size hidden_size num_layers |}.

Definition nn_Linear (k : nat) (in_features out_features : Z) : Nn.Linear :=
  let '(w, b) := linear_reset_parameters fw k in_features out_features in
  {| Nn.in_features := in_features; Nn.out_features := out_features;
     Nn.weight := w; Nn.bias := b |}.

(** [__init__]; an argument left out is [None] and takes its default. *)
Definition LSTMClassifier_init (input_size seq_size h_size : Z)
    (n_classes n_lstm_layers n_linear_layers_hidden : option Z)
    (dropout : option pyfloat) : LSTMClassifier :=
  let n_classes := default 2%Z n_classes in
  let n_lstm_layers := default 1%Z n_lstm_layers in
  let n_linear_layers_hidden := default 0%Z n_linear_layers_hidden in
  let dropout := default (Fin 0) dropout in
  let hidden := Z.to_nat n_linear_layers_hidden in
  {| lstm := nn_LSTM input_size h_size n_lstm_layers true dropout false;
     linear :=
       concat ((λ k, [Nn.LinearLayer (nn_Linear k h_size h_size); Nn.ReLU])
                 <$> seq 0 hidden)
       ++ [Nn.LinearLayer (nn_Linear hidden h_size n_classes)];
     n_classes := n_classes;
     training := true |}.

Definition linear_apply (l : Nn.Linear) (x : T1) : T1 :=
  (λ j, Tensor.dot (Nn.weight l !!! j) x + Nn.bias l !!! j)%Q
    <$> seq 0 (Z.to_nat (Nn.out_features l)).

Definition layer_apply (ly : Nn.layer) (x : T2) : T2 :=
  match ly with
  | Nn.LinearLayer l => linear_apply l <$> x
  | Nn.ReLU => (λ row : T1, Qmax 0 <$> row) <$> x
  end.

(** [nn.Sequential.forward] *)
Definition sequential (layers : list Nn.layer) (x : T2) : T2 :=
  foldl (λ acc ly, layer_apply ly acc) x layers.

Definition forward (self : LSTMClassifier) (seq : T3) : T2 :=
  let '(out, (_, _)) := lstm_forward fw (lstm self) (training self) seq in
  sequential (linear self) (Tensor.mean1 out).

Definition model_train (m : LSTMClassifier) : LSTMClassifier :=
  {| lstm := lstm m; linear := linear m; n_classes := n_classes m;
     training := true |}.

Definition model_eval (m : LSTMClassifier) : LSTMClassifier :=
  {| lstm := lstm m; linear := linear m; n_classes := n_classes m;
     training := false |}.

(** Writing the stepped weights back into the layers, in order. *)
Fixpoint set_linear_parameters (layers : list Nn.layer) (ps : list (T2 * T1))
    : list Nn.layer :=
  match layers, ps with
  | Nn.LinearLayer l :: layers', (w, b) :: ps' =>
      Nn.LinearLayer {| Nn.in_features := Nn.in_features l;
                        Nn.out_features := Nn.out_features l;
                        Nn.weight := w; Nn.bias := b |}
        :: set_linear_parameters layers' ps'
  | Nn.ReLU :: layers', _ => Nn.ReLU :: set_linear_parameters layers' ps
  | _, _ => layers
  end.

Definition set_parameters (m : LSTMClassifier) (ps : list T2 * list (T2 * T1))
    : LSTMClassifier :=
  let l := lstm m in
  {| lstm := {| Nn.input_size := Nn.input_size l;
                Nn.hidden_size := Nn.hidden_size l;
                Nn.num_layers := Nn.num_layers l;
                Nn.batch_first := Nn.batch_first l;
                Nn.dropout := Nn.dropout l;
                Nn.bidirectional := Nn.bidirectional l;
                Nn.parameters := ps.1 |};
     linear := set_linear_parameters (linear m) ps.2;
     n_classes := n_classes m;
     training := training m |}.

(** [torch.optim.Adam(model.parameters(), lr)] *)
Definition Adam_init (m : LSTMClassifier) (lr : pyfloat) : Nn.Adam :=
  {| Nn.adam_lr := lr; Nn.adam_state := [] |}.

(** ** DataLoader *)

Record DataLoader : Type := {
  dl_dataset : SeqDataset;
  dl_batch_size : Z;
  dl_shuffle : bool;
  dl_num_workers : Z
}.

Definition DataLoader_init (d : SeqDataset) (batch_size : Z) (shuffle : bool)
    (num_workers : Z) : Res DataLoader :=
  if (batch_size <=? 0)%Z then Raise ValueError
  else Ok {| dl_dataset := d; dl_batch_size := batch_size;
             dl_shuffle := shuffle; dl_num_workers := num_workers |}.

(** [len(loader)] *)
Definition DataLoader_len (dl : DataLoader) : Z :=
  ceil_div (SeqDataset_len (dl_dataset dl)) (dl_batch_size dl).

Definition chunks {A} (size : nat) (l : list A) : list (list A) :=
  (λ k, take size (drop (k * size) l))
    <$> seq 0 (Z.to_nat (ceil_div (Z.of_nat (length l)) (Z.of_nat size))).

(** The index batches one pass over the loader goes through. *)
Definition DataLoader_iter (dl : DataLoader) (key : iter_key) : list (list nat) :=
  let n := length (Y (dl_dataset dl)) in
  let order := if dl_shuffle dl then randperm fw key n else seq 0 n in
  chunks (Z.to_nat (dl_batch_size dl)) order.

(** Fetching and collating one batch. *)
Definition DataLoader_fetch (dl : DataLoader) (idxs : list nat) : Res Batch :=
  samples ← mapM (SeqDataset_getitem (dl_dataset dl)) idxs;
  Ok {| sequence := sample_sequence <$> samples;
        label := sample_label <$> samples |}.

(** ** train *)

(** The variables the training loop carries. *)
Record TrainState : Type := {
  ts_model : LSTMClassifier;
  ts_optim : Nn.Adam;
  global_step : Z;
  accuracies : list pyfloat;
  max_running_mean : pyfloat;
  epoch_loss : pyfloat;
  running_loss : pyfloat;
  ts_world : World
}.

(** One batch of the evaluation pass: [correct] and [n_samples]. *)
Definition eval_batch (model : LSTMClassifier) (counts : Z * Z) (batch : Batch)
    : Z * Z :=
  let '(correct, n_samples) := counts in
  let pred := Tensor.argmax <$> forward model (sequence batch) in
  ((correct + Tensor.eq_count pred (label batch))%Z,
   (n_samples + Z.of_nat (length pred))%Z).

(** The body of [if global_step % 5 == 0]. *)
Definition evaluate (test_loader : option DataLoader) (st : TrainState)
    : Res TrainState :=
  let model := model_eval (ts_model st) in
  let w := emit EvModelEval (ts_world st) in
  loader ← (match test_loader with
            | Some dl => Ok dl
            | None => Raise TypeError
            end);
  counts ← for_loop
              (λ counts idxs,
                 batch ← DataLoader_fetch loader idxs;
                 Ok (eval_batch model counts batch))
              (DataLoader_iter loader (IterEval (global_step st)))
              (0%Z, 0%Z);
  acc ← Float.truediv (Fin (inject_Z counts.1)) counts.2;
  let accuracies := Py.slice_from (accuracies st) 1 ++ [acc] in
  let max_running_mean :=
    if Float.gt (Float.mean accuracies) (max_running_mean st)
    then Float.mean accuracies
    else max_running_mean st in
  let w := emit (EvAddScalar "Accuracy" acc (global_step st)) w in
  let model := model_train model in
  let w := emit EvModelTrain w in
  Ok {| ts_model := model; ts_optim := ts_optim st;
        global_step := global_step st; accuracies := accuracies;
        max_running_mean := max_running_mean;
        epoch_loss := epoch_loss st; running_loss := running_loss st;
        ts_world := w |}.

(** The body of the loop over the batches of an epoch. *)
Definition train_step (loss_function : Nn.CrossEntropyLoss)
    (train_loader : DataLoader) (test_loader : option DataLoader)
    (st : TrainState) (ix_idxs : Z * list nat) : Res TrainState :=
  let '(ix, idxs) := ix_idxs in
  batch ← DataLoader_fetch train_loader idxs;
  let logits := forward (ts_model st) (sequence batch) in
  let loss :=
    cross_entropy fw (Nn.reduction loss_function) logits (label batch) in
  let '(optim, ps) := adam_step fw (ts_optim st) (ts_model st) batch in
  let model := set_parameters (ts_model st) ps in
  let w := emit (EvAddScalar "loss" loss (global_step st)) (ts_world st) in
  let global_step := (global_step st + 1)%Z in
  let epoch_loss := Float.add (epoch_loss st) loss in
  let running_loss :=
    if (ix =? 0)%Z then loss
    else Float.add (Float.mul (running_loss st) (Fin (1 # 2)))
                   (Float.mul loss (Fin (1 # 2))) in
  let st' := {| ts_model := model; ts_optim := optim;
                global_step := global_step; accuracies := accuracies st;
                max_running_mean := max_running_mean st;
                epoch_loss := epoch_loss; running_loss := running_loss;
                ts_world := w |} in
  if (global_step `mod` 5 =? 0)%Z then evaluate test_loader st' else Ok st'.

(** The head of the epoch loop: [model.train()] and the two loss
    accumulators reset. *)
Definition epoch_begin (st : TrainState) : TrainState :=
  {| ts_model := model_train (ts_model st); ts_optim := ts_optim st;
     global_step := global_step st; accuracies := accuracies st;
     max_running_mean := max_running_mean st;
     epoch_loss := Fin 0; running_loss := Fin 0;
     ts_world := emit EvModelTrain (ts_world st) |}.

(** The body of the loop over the epochs. *)
Definition train_epoch (loss_function : Nn.CrossEntropyLoss)
    (train_loader : DataLoader) (test_loader : option DataLoader)
    (st : TrainState) (epoch : Z) : Res TrainState :=
  let st := epoch_begin st in
  st ← for_loop (train_step loss_function train_loader test_loader)
         (enumerate (DataLoader_iter train_loader (IterEpoch epoch))) st;
  (* print("epoch", epoch, "loss:", epoch_loss / len(train_loader)) *)
  _ ← Float.truediv (epoch_loss st) (DataLoader_len train_loader);
  Ok st.

Definition log_dir (args : Args) : path := Os.join ["logs"] (exp_name args).
Definition checkpoint_dir (args : Args) : path :=
  Os.join ["checkpoints"] (exp_name args).
Definition checkpoint_path (args : Args) : path :=
  Os.join (checkpoint_dir args) "model.pt".

(** The directories [train] prepares before the loop. *)
Definition train_setup (args : Args) (w : World) : Res World :=
  w ← (if negb (Os.isdir (log_dir args) (w_fs w))
       then os_makedirs (log_dir args) w else Ok w);
  w ← SummaryWriter (Os.join (log_dir args) "train") w;
  if negb (Os.isfile (checkpoint_path args) (w_fs w)) then
    if negb (Os.isdir (checkpoint_dir args) (w_fs w))
    then os_makedirs (checkpoint_dir args) w else Ok w
  else Ok w.

Definition train_loss_function : Nn.CrossEntropyLoss :=
  {| Nn.reduction := Nn.ReductionMean |}.

Definition train_init (model : LSTMClassifier) (optim : Nn.Adam) (w : World)
    : TrainState :=
  {| ts_model := model; ts_optim := optim; global_step := 0;
     accuracies := replicate 5 (Fin 0); max_running_mean := Fin 0;
     epoch_loss := Fin 0; running_loss := Fin 0; ts_world := w |}.

(** The loop over the epochs, from the state [train] starts it in. *)
Definition train_loop (args : Args) (train_loader : DataLoader)
    (test_loader : option DataLoader) (st : TrainState) : Res TrainState :=
  let epoch_ckp := 0%Z in
  for_loop (train_epoch train_loss_function train_loader test_loader)
    (range epoch_ckp (epoch_ckp + num_epochs args)) st.

Definition train (args : Args) (model : LSTMClassifier) (optim : Nn.Adam)
    (train_loader : DataLoader) (test_loader : option DataLoader)
    (baseline_accuracy : pyfloat) (w : World) : Res (pyfloat * World) :=
  let w := emit (EvTrain args model) w in
  w ← train_setup args w;
  st ← train_loop args train_loader test_loader (train_init model optim w);
  Ok (max_running_mean st, ts_world st).

(** The transitions of the training loop: entering an epoch, and one
    iteration of the loop over its batches. *)
Inductive loop_step (train_loader : DataLoader)
    (test_loader : option DataLoader) : TrainState → TrainState → Prop :=
  | loop_step_epoch st :
      loop_step train_loader test_loader st (epoch_begin st)
  | loop_step_batch st ix_idxs st' :
      train_step train_loss_function train_loader test_loader st ix_idxs = Ok st' →
      loop_step train_loader test_loader st st'.

(** ** The grid search *)

Inductive pyval : Type :=
  | PyFloat (x : pyfloat)
  | PyInt (n : Z).

(** The variables of the driver. *)
Record GridState : Type := {
  gs_args : Args;
  steps : Z;
  total_steps : Z;
  max_perf : pyfloat;
  best_args : list pyval;
  gs_world : World
}.

Definition lrs : list pyfloat :=
  (λ i, Fin (1 * Qpower 10 (- i))) <$> range 1 4.
Definition batch_sizes : list Z := [32; 64]%Z.
Definition hidden_sizes : list Z := [12; 24; 48; 64]%Z.

(** [train_dataset.Y.float().mean().item()], then the [max]. *)
Definition baseline_accuracy_of (Y : list Z) : pyfloat :=
  let baseline_acc := Tensor.mean (Tensor.float Y) in
  Float.max (Float.sub (Fin 1) baseline_acc) baseline_acc.

(** The body of the innermost loop; the primed names are the loop
    variables, the unprimed ones the fields of [args]. *)
Definition grid_body (train_dataset val_dataset : SeqDataset)
    (baseline_acc : pyfloat) (lr' : pyfloat) (batch_size' : Z)
    (st : GridState) (hidden_size' : Z) : Res GridState :=
  let args :=
    set_hidden_size hidden_size' (set_lr lr' (set_batch_size batch_size' (gs_args st))) in
  train_loader ← DataLoader_init train_dataset (batch_size args) true 3;
  val_loader ← (if negb (truthy (test_on_train args))
                then DataLoader_init val_dataset (batch_size args) true 3
                else Ok train_loader);
  let model :=
    LSTMClassifier_init 11 (cap_len args) (hidden_size args) None
      (Some (num_lstm_layers args)) (Some (num_linear_layers args - 1)%Z)
      (Some (dropout args)) in
  let optimizer := Adam_init model (lr args) in
  '(perf, w) ← train args model optimizer train_loader (Some val_loader)
                 baseline_acc (gs_world st);
  let steps := (steps st + 1)%Z in
  let w := emit (EvPrintDone steps (total_steps st) perf) w in
  if Float.gt perf (max_perf st) then
    Ok {| gs_args := args; steps := steps; total_steps := total_steps st;
          max_perf := perf;
          best_args := [PyFloat lr'; PyInt batch_size'; PyInt hidden_size'];
          gs_world := w |}
  else
    Ok {| gs_args := args; steps := steps; total_steps := total_steps st;
          max_perf := max_perf st; best_args := best_args st;
          gs_world := w |}.

(** The three nested loops. *)
Definition grid_search (train_dataset val_dataset : SeqDataset)
    (baseline_acc : pyfloat) (st : GridState) : Res GridState :=
  for_loop
    (λ st lr',
       for_loop
         (λ st batch_size',
            for_loop
              (grid_body train_dataset val_dataset baseline_acc lr' batch_size')
              hidden_sizes st)
         batch_sizes st)
    lrs st.

Definition dict_get {V} (d : gmap string V) (k : string) : Res V :=
  match d !! k with
  | Some v => Ok v
  | None => Raise KeyError
  end.

(** The script body; [full_dataset] is what [DatasetBuilder.create_dataset]
    returned. *)
Definition main (args : Args) (full_dataset : gmap string (list example))
    (w : World) : Res GridState :=
  val_dataset ← dict_get full_dataset "val";
  train_dataset ← (if truthy (debug args) then Ok val_dataset
                   else dict_get full_dataset "train");
  train_dataset ← seq_data_to_dataset train_dataset (cap_len args) 11 true;
  val_dataset ← seq_data_to_dataset val_dataset (cap_len args) 11 true;
  train_loader ← DataLoader_init train_dataset (batch_size args) true 0;
  val_loader ← (if negb (truthy (test_on_train args))
                then DataLoader_init val_dataset (batch_size args) true 0
                else Ok train_loader);
  let baseline_acc := baseline_accuracy_of (Y train_dataset) in
  let total_steps :=
    (Z.of_nat (length lrs) * Z.of_nat (length batch_sizes)
     * Z.of_nat (length hidden_sizes))%Z in
  grid_search train_dataset val_dataset baseline_acc
    {| gs_args := args; steps := 0; total_steps := total_steps;
       max_perf := Fin 0; best_args := []; gs_world := w |}.

End Script.

(** ** Reading the log *)

(** The values recorded under the tag "Accuracy", oldest first. *)
Definition accuracy_of (e : event) : option pyfloat :=
  match e with
  | EvAddScalar tag v _ => if decide (tag = "Accuracy") then Some v else None
  | _ => None
  end.

Definition accuracy_log (evs : list event) : list pyfloat :=
  omap accuracy_of evs.

(** The rolling window after [k] evaluations: the last five entries of five
    zeros followed by the first [k] accuracies. *)
Definition window (accs : list pyfloat) (k : nat) : list pyfloat :=
  drop k (replicate 5 (Fin 0) ++ take k accs).

(** A float in the unit interval. *)
Definition unit_float (a : pyfloat) : Prop :=
  Float.le (Fin 0) a ∧ Float.le a (Fin 1).

(** Training steps and evaluations, each with the step counter it logged. *)
Inductive step_event : Type :=
  | TrainingStep (logged : Z)
  | Evaluation (logged : Z).

Definition step_event_of (e : event) : option step_event :=
  match e with
  | EvAddScalar tag _ g =>
      if decide (tag = "loss") then Some (TrainingStep g)
      else if decide (tag = "Accuracy") then Some (Evaluation g)
      else None
  | _ => None
  end.

Definition step_events (evs : list event) : list step_event :=
  omap step_event_of evs.

(** What a run of [n] training steps is expected to log: the g-th step
    (counted from 1) logs its loss under the counter before the increment,
    and is followed by an evaluation exactly when 5 divides g. *)
Definition expected_step_events (n : Z) : list step_event :=
  mjoin ((λ g, TrainingStep (g - 1)
               :: (if (g `mod` 5 =? 0)%Z then [Evaluation g] else []))
           <$> seqZ 1 n).

(** The runs the driver started: the hyperparameters and the model of each
    call of [train]. *)
Definition train_call_of (e : event) : option (Args * LSTMClassifier) :=
  match e with
  | EvTrain a m => Some (a, m)
  | _ => None
  end.

Definition train_calls (evs : list event) : list (Args * LSTMClassifier) :=
  omap train_call_of evs.

(** The events that only record a file-system call. *)
Definition fs_event (e : event) : bool :=
  match e with
  | EvMakedirs _ | EvSummaryWriter _ => true
  | _ => false
  end.

(** The events the training loop emits. *)
Definition loop_event (e : event) : bool :=
  match e with
  | EvModelTrain | EvModelEval | EvAddScalar _ _ _ => true
  | _ => false
  end.

(** In a log, every switch to evaluation mode is followed by the accuracy
    record and then by the switch back to training mode. *)
Definition eval_then_train (evs : list event) : Prop :=
  ∀ i, evs !! i = Some EvModelEval →
    (∃ acc g, evs !! (i + 1) = Some (EvAddScalar "Accuracy" acc g))
    ∧ evs !! (i + 2) = Some EvModelTrain.

(** What the training loop maintains between its state and the events
    [evs] it has logged since [train] was entered. *)
Definition train_invariant (evs : list event) (st : TrainState) : Prop :=
  let accs := accuracy_log evs in
  accuracies st = window accs (length accs)
  ∧ Forall unit_float accs
  ∧ unit_float (max_running_mean st)
  ∧ (∀ k, 1 ≤ k ≤ length accs →
       Float.le (Float.mean (window accs k)) (max_running_mean st))
  ∧ ((accs = [] ∧ max_running_mean st = Fin 0)
     ∨ ∃ k, 1 ≤ k ≤ length accs
            ∧ Float.eq (max_running_mean st) (Float.mean (window accs k)))
  ∧ (0 ≤ global_step st)%Z
  ∧ step_events evs = expected_step_events (global_step st)
  ∧ eval_then_train evs.

(** The performances the driver printed, one per finished run. *)
Definition done_perf_of (e : event) : option pyfloat :=
  match e with
  | EvPrintDone _ _ perf => Some perf
  | _ => None
  end.

Definition done_perfs (evs : list event) : list pyfloat :=
  omap done_perf_of evs.

(** ** The grid *)

(** A point of the grid: learning rate, batch size, hidden size. *)
Abbreviation point := (pyfloat * Z * Z)%type.

(** Every combination, learning rate outermost and hidden size innermost. *)
Definition grid_points : list point :=
  lr' ← lrs; batch_size' ← batch_sizes; hidden_size' ← hidden_sizes;
  [(lr', batch_size', hidden_size')].

(** The point a call of [train] was made for. *)
Definition point_of_call (c : Args * LSTMClassifier) : point :=
  (lr c.1, batch_size c.1, hidden_size c.1).

(** What [best_args] holds for a point. *)
Definition point_args (pt : point) : list pyval :=
  [PyFloat pt.1.1; PyInt pt.1.2; PyInt pt.2].

(** The running best over the finished runs: a run takes over when its
    performance is strictly greater than the best so far. *)
Definition best_step (best : pyfloat * list pyval) (run : point * pyfloat)
    : pyfloat * list pyval :=
  if Float.gt run.2 best.1 then (run.2, point_args run.1) else best.

Definition best_of (runs : list (point * pyfloat)) : pyfloat * list pyval :=
  foldl best_step (Fin 0, []) runs.

(** ** Retained examples *)


(** ** Labels *)




(** ** Shapes *)

Definition shape2 (t : T2) (n m : nat) : Prop :=
  length t = n ∧ Forall (λ row, length row = m) t.

Definition shape3 (t : T3) (n m k : nat) : Prop :=
  length t = n ∧ Forall (λ s, shape2 s m k) t.

(** ** Comparing file systems *)

(** [m'] is [m] with new directories, each at a prefix of one of [ps];
    nothing that was there has changed and no file has appeared. *)
Definition new_dirs_along (ps : list path) (m m' : gmap path node) : Prop :=
  ∀ q, m' !! q = m !! q
       ∨ (m !! q = None ∧ m' !! q = Some Dir ∧ q ≠ []
          ∧ ∃ p, p ∈ ps ∧ q `prefix_of` p).


(** ** A small instance of the framework *)

(** An instance to run the definitions on concrete inputs.  Sequences are
    cut to [cap_len] steps and examples with an empty sequence are dropped;
    the LSTM outputs, at every time step, the sum of the input features in
    each of its hidden units; the optimiser leaves the weights alone; a
    shuffling loader visits the indices in reverse. *)
Definition toy_framework : Framework := {|
  preprocess_sequences_to_fixed_len := λ seq_data cap_len _,
    ((λ p, take (Z.to_nat cap_len) p.2.1)
       <$> filter (λ p, p.2.1 ≠ []) (enumerate seq_data),
     list_to_set ((λ p, p.1) <$> filter (λ p, p.2.1 = []) (enumerate seq_data)));
  standardize_and_turn_tensor := λ x _, x;
  lstm_reset_parameters := λ _ _ _, [];
  linear_reset_parameters := λ _ i o,
    (replicate (Z.to_nat o) (replicate (Z.to_nat i) (1 # 2)%Q),
     (λ j, inject_Z (Z.of_nat j)) <$> seq 0 (Z.to_nat o));
  lstm_forward := λ l _ x,
    ((λ s : T2, (λ r : T1, replicate (Z.to_nat (Nn.hidden_size l)) (Tensor.Qsum r))
                  <$> s) <$> x,
     ([], []));
  cross_entropy := λ _ _ _, Fin 1;
  adam_step := λ o m _, (o, (Nn.parameters (lstm m), []));
  randperm := λ _ n, reverse (seq 0 n)
|}.

(** Three examples after preprocessing, visited one per batch; the toy
    network answers class 1 on every input. *)
Definition toy_dataset : SeqDataset :=
  {| X := [[[1; 2]; [3; 4]]; [[1; 0]]; [[-5; 0]]]%Q; Y := [1; 0; 1]%Z |}.

Definition toy_loader : DataLoader :=
  {| dl_dataset := toy_dataset; dl_batch_size := 1; dl_shuffle := true;
     dl_num_workers := 0 |}.

Definition toy_args : Args := {|
  dataset := "twitter15";
  lr := Fin (1 # 100);
  num_epochs := 2;
  num_lstm_layers := 2;
  num_linear_layers := 1;
  hidden_size := 3;
  dropout := Fin (1 # 2);
  batch_size := 1;
  debug := 1;
  test_on_train := 1;
  verbose := 0;
  cap_len := 40;
  exp_name := "toy"
|}.

Definition toy_model : LSTMClassifier :=
  LSTMClassifier_init toy_framework 2 40 3 None (Some 2%Z) (Some 0%Z)
    (Some (Fin (1 # 2))).

Definition toy_world : World := {| w_fs := ∅; w_log := [] |}.

(** Four raw examples, one of them with an empty sequence, for a whole run
    of the script; five epochs, so that every run of the grid evaluates
    once. *)
Definition toy_examples : list example :=
  [([[1; 2]; [3; 4]]%Q, [1%Z]); ([], [0%Z]); ([[1; 0]]%Q, [0%Z]);
   ([[-5; 0]]%Q, [1%Z])].

Definition toy_full_dataset : gmap string (list example) :=
  {["val" := toy_examples]}.

Definition toy_script_args : Args := {|
  dataset := "twitter15";
  lr := Fin (1 # 100);
  num_epochs := 5;
  num_lstm_layers := 2;
  num_linear_layers := 1;
  hidden_size := 12;
  dropout := Fin (1 # 2);
  batch_size := 32;
  debug := 1;
  test_on_train := 1;
  verbose := 0;
  cap_len := 40;
  exp_name := "toy"
|}.


(** ** Reading the log: file-system calls *)

(** The paths [os.makedirs] was called on, and the directories the
    summary writers were opened on, oldest first. *)
Definition makedirs_of (e : event) : option path :=
  match e with
  | EvMakedirs p => Some p
  | _ => None
  end.

Definition makedirs_log (evs : list event) : list path := omap makedirs_of evs.

Definition writer_of (e : event) : option path :=
  match e with
  | EvSummaryWriter p => Some p
  | _ => None
  end.

Definition writer_log (evs : list event) : list path := omap writer_of evs.

(** The state of the file system in which [train] finds nothing to create:
    the log directory is there, and so is the checkpoint directory or the
    checkpoint file. *)
Definition dirs_ready (args : Args) (m : gmap path node) : Prop :=
  Os.isdir (log_dir args) m = true
  ∧ (Os.isfile (checkpoint_path args) m = true
     ∨ Os.isdir (checkpoint_dir args) m = true).

(** The number of batches a run of [train] goes through. *)
Definition total_batches (fw : Framework) (args : Args) (train_loader : DataLoader)
    : Z :=
  Z.of_nat (sum_list
    ((λ epoch, length (DataLoader_iter fw train_loader (IterEpoch epoch)))
       <$> range 0 (0 + num_epochs args))).

(** The three assignments at the head of the grid loop's body. *)
Definition at_point (pt : point) (a : Args) : Args :=
  set_hidden_size pt.2 (set_lr pt.1.1 (set_batch_size pt.1.2 a)).

(** A split data set and arguments that train on the "train" split. *)
Definition toy_split_dataset : gmap string (list example) :=
  {["train" := toy_examples;
    "val" := [([[2; 2]]%Q, [0%Z]); ([[0; 1]; [1; 1]]%Q, [1%Z])]]}.

Definition toy_split_args : Args := {|
  dataset := "twitter15";
  lr := Fin (1 # 100);
  num_epochs := 5;
  num_lstm_layers := 1;
  num_linear_layers := 2;
  hidden_size := 12;
  dropout := Fin 0;
  batch_size := 32;
  debug := 0;
  test_on_train := 1;
  verbose := 0;
  cap_len := 40;
  exp_name := "split"
|}.

Definition is_evaluation (e : step_event) : bool :=
  match e with
  | Evaluation _ => true
  | TrainingStep _ => false
  end.


(** * Verified properties *)

(** ** Slices and batches *)

Lemma slice_take_drop {A} (l : list A) (lo hi : Z) :
  (0 ≤ lo)%Z → (lo ≤ hi)%Z →
  Py.slice l lo hi = take (Z.to_nat (hi - lo)) (drop (Z.to_nat lo) l).
Proof.
  intros Hlo Hhi. unfold Py.slice, Py.norm_index.
  destruct (Z.ltb_spec lo 0) as [?|_]; [lia|].
  destruct (Z.ltb_spec hi 0) as [?|_]; [lia|].
  destruct (Z.le_gt_cases hi (Z.of_nat (length l))) as [Hh|Hh].
  - destruct (Z.le_gt_cases lo (Z.of_nat (length l))) as [Hl|Hl]; [|lia].
    by rewrite !Z.min_l by lia.
  - rewrite (Z.min_r hi) by lia.
    destruct (Z.le_gt_cases lo (Z.of_nat (length l))) as [Hl|Hl].
    + rewrite Z.min_l by lia.
      rewrite !take_ge by (rewrite length_drop; lia). done.
    + rewrite Z.min_r by lia.
      rewrite !drop_ge by lia. by rewrite !take_nil.
Qed.

Section DatasetIteratorFacts.
Context {A : Type}.
Implicit Types (dataset : list A) (bs c : Z).

Lemma ceil_div_nonpos (m b : Z) : (1 ≤ b)%Z → (m ≤ 0)%Z → (ceil_div m b ≤ 0)%Z.
Proof.
  intros Hb Hm. unfold ceil_div.
  destruct (Z.le_gt_cases 0 (m + b - 1)) as [H|H].
  - rewrite Z.div_small; lia.
  - apply Z.lt_le_incl, Z.div_lt_upper_bound; lia.
Qed.

Lemma ceil_div_step (m b : Z) : (1 ≤ b)%Z → ceil_div m b = (1 + ceil_div (m - b) b)%Z.
Proof.
  intros Hb. unfold ceil_div.
  replace (m + b - 1)%Z with ((m - b + b - 1) + 1 * b)%Z by lia.
  rewrite Z.div_add by lia. lia.
Qed.

Lemma ceil_div_pos (m b : Z) : (1 ≤ b)%Z → (0 < m)%Z → (1 ≤ ceil_div m b)%Z.
Proof.
  intros Hb Hm. unfold ceil_div. apply Z.div_le_lower_bound; lia.
Qed.

Lemma dataset_iterator_loop_spec dataset bs :
  (1 ≤ bs)%Z →
  ∀ fuel c, (0 ≤ c)%Z →
    (Z.max 0 (Z.of_nat (length dataset) - c) < Z.of_nat fuel)%Z →
  ∃ batches,
    dataset_iterator_loop fuel dataset bs c = Some batches
    ∧ concat batches = drop (Z.to_nat c) dataset
    ∧ Z.of_nat (length batches) = Z.max 0 (ceil_div (Z.of_nat (length dataset) - c) bs)
    ∧ ∀ k, k < length batches →
        batches !! k =
          Some (take (Z.to_nat bs) (drop (Z.to_nat c + k * Z.to_nat bs) dataset)).
Proof.
  intros Hbs. induction fuel as [|fuel IH]; intros c Hc Hfuel.
  - lia.
  - simpl. destruct (Z.ltb_spec c (Z.of_nat (length dataset))) as [Hlt|Hge].
    + destruct (IH (c + bs)%Z) as (rest & -> & Hcat & Hlen & Hnth); [lia..|].
      eexists; split; [done|]. split; [|split].
      * simpl. rewrite Hcat, slice_take_drop by lia.
        replace (c + bs - c)%Z with bs by lia.
        replace (Z.to_nat (c + bs)) with (Z.to_nat c + Z.to_nat bs) by lia.
        rewrite <-drop_drop. apply take_drop.
      * simpl length. rewrite Nat2Z.inj_succ, Hlen.
        rewrite (ceil_div_step (Z.of_nat (length dataset) - c)) by done.
        replace (Z.of_nat (length dataset) - (c + bs))%Z
          with (Z.of_nat (length dataset) - c - bs)%Z by lia.
        pose proof (ceil_div_pos (Z.of_nat (length dataset) - c) bs Hbs).
        rewrite (ceil_div_step (Z.of_nat (length dataset) - c)) in H by done.
        lia.
      * intros [|k] Hk; simpl in *.
        -- rewrite slice_take_drop by lia. do 3 f_equal; lia.
        -- rewrite Hnth by lia. do 3 f_equal. lia.
    + exists []. split; [done|]. split; [|split].
      * simpl. rewrite drop_ge; [done|lia].
      * simpl. pose proof (ceil_div_nonpos (Z.of_nat (length dataset) - c) bs). lia.
      * simpl. lia.
Qed.

End DatasetIteratorFacts.

(** C8. For a dataset of length n and a batch size of at least one, the
    generator (given enough fuel for its loop) yields exactly
    ceil(n / batch_size) batches; the k-th batch is the contiguous slice of
    at most batch_size elements starting at k * batch_size; every batch but
    possibly the last has exactly batch_size elements; and the batches
    concatenated in order give back the (optionally shuffled) dataset. *)
Theorem dataset_iterator_batches {A} (random_shuffle : list A → list A)
    (dataset : list A) (batch_size : Z) (shuffle : bool) (fuel : nat) :
  (∀ l, random_shuffle l ≡ₚ l) →
  (1 ≤ batch_size)%Z →
  length dataset < fuel →
  let ds := iterated_dataset random_shuffle dataset shuffle in
  ∃ batches,
    dataset_iterator random_shuffle fuel dataset batch_size shuffle = Some batches
    ∧ Z.of_nat (length batches) = ceil_div (Z.of_nat (length dataset)) batch_size
    ∧ concat batches = ds
    ∧ concat batches ≡ₚ dataset
    ∧ (∀ k, k < length batches →
         batches !! k =
           Some (take (Z.to_nat batch_size) (drop (k * Z.to_nat batch_size) ds)))
    ∧ (∀ k b, batches !! k = Some b → (Z.of_nat (length b) ≤ batch_size)%Z)
    ∧ (∀ k b, batches !! k = Some b → S k < length batches →
         Z.of_nat (length b) = batch_size).
Proof.
  intros Hperm Hbs Hfuel ds.
  assert (Hds : ds ≡ₚ dataset).
  { unfold ds, iterated_dataset. destruct shuffle; [apply Hperm|done]. }
  assert (Hn : length ds = length dataset) by by rewrite Hds.
  destruct (dataset_iterator_loop_spec ds batch_size Hbs fuel 0)
    as (batches & Hrun & Hcat & Hlen & Hnth); [lia..|].
  simpl in Hcat, Hnth. rewrite Z.sub_0_r, Hn in Hlen.
  assert (Hlen' : Z.of_nat (length batches)
                  = ceil_div (Z.of_nat (length dataset)) batch_size).
  { rewrite Hlen. apply Z.max_r. unfold ceil_div. apply Z.div_pos; lia. }
  exists batches. split; [exact Hrun|]. split; [exact Hlen'|].
  split; [exact Hcat|]. split; [by rewrite Hcat|]. split; [exact Hnth|]. split.
  - intros k b Hb. pose proof (lookup_lt_Some _ _ _ Hb) as Hk.
    rewrite (Hnth k Hk) in Hb. injection Hb as <-. rewrite length_take. lia.
  - intros k b Hb Hk. rewrite (Hnth k) in Hb by lia. injection Hb as <-.
    rewrite length_take, length_drop, Hn.
    assert (Z.of_nat (S k) * batch_size ≤ Z.of_nat (length dataset) - 1)%Z; [|nia].
    pose proof (Z.mul_div_le (Z.of_nat (length dataset) + batch_size - 1) batch_size).
    unfold ceil_div in Hlen'. nia.
Qed.

(** A run of [dataset_iterator] on five items in batches of two. *)
Lemma dataset_iterator_batches_witness :
  (∀ l : list nat, reverse l ≡ₚ l) ∧ (1 ≤ 2)%Z ∧ 5 < 6 ∧
  ∃ batches,
    dataset_iterator (@reverse nat) 6 [1; 2; 3; 4; 5] 2 true = Some batches
    ∧ Z.of_nat (length batches) = 3%Z
    ∧ concat batches = [5; 4; 3; 2; 1].
Proof.
  assert (Hrev : ∀ l : list nat, reverse l ≡ₚ l)
    by (intros l; apply reverse_Permutation).
  split; [exact Hrev|]. split; [lia|]. split; [lia|].
  destruct (dataset_iterator_batches (@reverse nat) [1; 2; 3; 4; 5] 2 true 6)
    as (batches & Hrun & Hlen & Hcat & _); [exact Hrev|lia|simpl; lia|].
  exists batches. split; [exact Hrun|]. split; [exact Hlen|exact Hcat].
Defined.

(** ** The result monad and loops *)

Lemma bind_Ok {A B} (m : Res A) (k : A → Res B) (b : B) :
  m ≫= k = Ok b → ∃ a, m = Ok a ∧ k a = Ok b.
Proof. destruct m as [a|e]; [by exists a|discriminate]. Qed.

(** Splits a hypothesis [x ← m; k = Ok b] into the two runs it stands for. *)
Ltac bind_inv H :=
  let x := fresh "x" in
  let Hx := fresh "H" x in
  apply bind_Ok in H as (x & Hx & H).

Lemma for_loop_app {S A} (body : S → A → Res S) (l1 l2 : list A) (s : S) :
  for_loop body (l1 ++ l2) s = for_loop body l1 s ≫= for_loop body l2.
Proof.
  revert s. induction l1 as [|x l1 IH]; intros s; [done|].
  simpl. destruct (body s x) as [s'|e]; [apply IH|done].
Qed.

(** A loop that ends normally went through its body once per element. *)
Lemma for_loop_rtc {S A} (body : S → A → Res S) (R : relation S) :
  (∀ s x s', body s x = Ok s' → rtc R s s') →
  ∀ l s s', for_loop body l s = Ok s' → rtc R s s'.
Proof.
  intros Hbody. induction l as [|x l IH]; intros s s' Hrun; simpl in Hrun.
  - injection Hrun as <-. done.
  - bind_inv Hrun. etrans; [by eapply Hbody|by apply IH].
Qed.

Lemma for_loop_invariant {S A} (body : S → A → Res S) (P : S → Prop) :
  (∀ s x s', P s → body s x = Ok s' → P s') →
  ∀ l s s', P s → for_loop body l s = Ok s' → P s'.
Proof.
  intros Hbody. induction l as [|x l IH]; intros s s' Hs Hrun; simpl in Hrun.
  - by injection Hrun as <-.
  - bind_inv Hrun. eauto.
Qed.

(** ** Floats *)

Lemma Qltb_lt (x y : Q) : Qltb x y = true ↔ (x < y)%Q.
Proof.
  unfold Qltb. rewrite negb_true_iff, <-not_true_iff_false, Qle_bool_iff.
  split; [apply Qnot_le_lt|apply Qlt_not_le].
Qed.

Lemma Qltb_ge (x y : Q) : Qltb x y = false ↔ (y <= x)%Q.
Proof. unfold Qltb. by rewrite negb_false_iff, Qle_bool_iff. Qed.

Lemma Q_unit_div (c n : Z) :
  (0 ≤ c ≤ n)%Z → (0 < n)%Z → (0 <= inject_Z c / inject_Z n <= 1)%Q.
Proof.
  intros Hc Hn.
  assert (0 < inject_Z n)%Q.
  { change (inject_Z 0 < inject_Z n)%Q. by rewrite <-Zlt_Qlt. }
  split.
  - apply Qle_shift_div_l; [done|]. rewrite Qmult_0_l.
    change (inject_Z 0 <= inject_Z c)%Q. rewrite <-Zle_Qle. lia.
  - apply Qle_shift_div_r; [done|]. rewrite Qmult_1_l.
    rewrite <-Zle_Qle. lia.
Qed.

Lemma slice_from_1 {A} (l : list A) : Py.slice_from l 1 = drop 1 l.
Proof.
  unfold Py.slice_from, Py.norm_index. simpl. destruct l as [|x l]; [done|].
  simpl length. replace (Z.to_nat (Z.min 1 (Z.of_nat (S (length l))))) with 1 by lia.
  done.
Qed.

(** ** The rolling window and its mean *)

Lemma Float_le_refl q : Float.le (Fin q) (Fin q).
Proof. apply Qle_refl. Qed.

Lemma Float_le_trans a b c : Float.le a b → Float.le b c → Float.le a c.
Proof.
  destruct a, b, c; simpl; try done. apply Qle_trans.
Qed.

Lemma unit_float_zero : unit_float (Fin 0).
Proof. split; simpl; [apply Qle_refl|done]. Qed.

Lemma window_length accs k : k ≤ length accs → length (window accs k) = 5.
Proof.
  intros Hk. unfold window.
  rewrite length_drop, length_app, length_replicate, length_take. lia.
Qed.

Lemma window_app_le accs l k : k ≤ length accs → window (accs ++ l) k = window accs k.
Proof. intros Hk. unfold window. by rewrite take_app_le. Qed.

Lemma window_snoc accs a :
  window (accs ++ [a]) (S (length accs)) = drop 1 (window accs (length accs)) ++ [a].
Proof.
  unfold window. rewrite take_ge by (rewrite length_app; simpl; lia).
  rewrite take_ge by lia. rewrite drop_drop.
  rewrite (assoc_L (++)), drop_app_le by (rewrite length_app, length_replicate; lia).
  f_equal. f_equal. lia.
Qed.

Lemma window_unit accs k : Forall unit_float accs → Forall unit_float (window accs k).
Proof.
  intros Haccs. unfold window. apply Forall_drop, Forall_app. split.
  - apply Forall_replicate, unit_float_zero.
  - by apply Forall_take.
Qed.

Lemma sum_unit l :
  Forall unit_float l →
  ∀ a, ∃ s, foldl Float.add (Fin a) l = Fin s
            ∧ (a <= s)%Q ∧ (s <= a + inject_Z (Z.of_nat (length l)))%Q.
Proof.
  induction 1 as [|x l [Hx0 Hx1] _ IH]; intros a.
  - exists a. split; [done|]. split; [apply Qle_refl|].
    simpl. rewrite Qplus_0_r. apply Qle_refl.
  - destruct x as [|x]; [done|]. simpl in Hx0, Hx1.
    destruct (IH (a + x)%Q) as (s & Hs & Hlo & Hhi).
    exists s. split; [exact Hs|]. split.
    + eapply Qle_trans; [|exact Hlo].
      rewrite <-(Qplus_0_r a) at 1. by apply Qplus_le_r.
    + eapply Qle_trans; [exact Hhi|].
      assert (Hlen : (inject_Z (Z.of_nat (length (Fin x :: l)))
                      == 1 + inject_Z (Z.of_nat (length l)))%Q).
      { simpl length. rewrite Nat2Z.inj_succ, <-Z.add_1_l, inject_Z_plus. reflexivity. }
      rewrite Hlen, <-Qplus_assoc. apply Qplus_le_r, Qplus_le_l. exact Hx1.
Qed.

Lemma mean_unit l : l ≠ [] → Forall unit_float l → unit_float (Float.mean l).
Proof.
  intros Hne Hl. unfold Float.mean, Float.sum.
  destruct (sum_unit l Hl 0) as (s & -> & Hlo & Hhi).
  destruct l as [|x l]; [done|]. simpl Float.lift2.
  set (n := inject_Z (Z.of_nat (length (x :: l)))) in *.
  assert (0 < n)%Q.
  { unfold n. change (inject_Z 0 < inject_Z (Z.of_nat (length (x :: l))))%Q.
    rewrite <-Zlt_Qlt. simpl. lia. }
  rewrite Qplus_0_l in Hhi. split; simpl.
  - apply Qle_shift_div_l; [done|]. by rewrite Qmult_0_l.
  - apply Qle_shift_div_r; [done|]. by rewrite Qmult_1_l.
Qed.

Lemma window_mean_unit accs k :
  k ≤ length accs → Forall unit_float accs →
  unit_float (Float.mean (window accs k)).
Proof.
  intros Hk Haccs. apply mean_unit; [|by apply window_unit].
  intros Hnil. pose proof (window_length accs k Hk) as Hlen.
  by rewrite Hnil in Hlen.
Qed.

(** ** Reading the log *)

Lemma accuracy_log_app evs1 evs2 :
  accuracy_log (evs1 ++ evs2) = accuracy_log evs1 ++ accuracy_log evs2.
Proof. apply omap_app. Qed.

Lemma step_events_app evs1 evs2 :
  step_events (evs1 ++ evs2) = step_events evs1 ++ step_events evs2.
Proof. apply omap_app. Qed.

Lemma train_calls_app evs1 evs2 :
  train_calls (evs1 ++ evs2) = train_calls evs1 ++ train_calls evs2.
Proof. apply omap_app. Qed.

Lemma expected_step_events_succ n :
  (0 ≤ n)%Z →
  expected_step_events (n + 1) =
    expected_step_events n
    ++ TrainingStep n
       :: (if ((n + 1) `mod` 5 =? 0)%Z then [Evaluation (n + 1)] else []).
Proof.
  intros Hn. unfold expected_step_events.
  rewrite seqZ_app by lia. rewrite fmap_app, join_app. f_equal.
  rewrite seqZ_cons, seqZ_nil by lia. simpl.
  replace (1 + n - 1)%Z with n by lia. replace (1 + n)%Z with (n + 1)%Z by lia.
  by rewrite app_nil_r.
Qed.

Lemma eval_then_train_app evs1 evs2 :
  eval_then_train evs1 → eval_then_train evs2 → eval_then_train (evs1 ++ evs2).
Proof.
  intros H1 H2 i Hi. apply lookup_app_Some in Hi as [Hi|[Hlen Hi]].
  - destruct (H1 i Hi) as [(acc & g & Hacc) Htr]. split.
    + exists acc, g. by apply lookup_app_l_Some.
    + by apply lookup_app_l_Some.
  - destruct (H2 _ Hi) as [(acc & g & Hacc) Htr]. split.
    + exists acc, g. rewrite lookup_app_r by lia. rewrite <-Hacc. f_equal. lia.
    + rewrite lookup_app_r by lia. rewrite <-Htr. f_equal. lia.
Qed.

Lemma eval_then_train_no_eval evs :
  EvModelEval ∉ evs → eval_then_train evs.
Proof. intros Hno i Hi. destruct Hno. by eapply list_elem_of_lookup_2. Qed.

Lemma eval_then_train_block loss g acc g' :
  eval_then_train
    [EvAddScalar "loss" loss g; EvModelEval; EvAddScalar "Accuracy" acc g';
     EvModelTrain].
Proof.
  intros [|[|[|[|i]]]] Hi; simpl in Hi; try discriminate.
  split; [by exists acc, g'|done].
Qed.

Section TrainFacts.
Context (fw : Framework).

(** *** The evaluation pass *)

Lemma eq_count_bounds (pred ys : list Z) :
  (0 ≤ Tensor.eq_count pred ys ≤ Z.of_nat (length pred))%Z.
Proof.
  unfold Tensor.eq_count. split; [lia|].
  apply inj_le. etrans; [apply length_filter|].
  rewrite length_zip. lia.
Qed.

Lemma eval_batch_counts model counts batch :
  (0 ≤ counts.1 ≤ counts.2)%Z →
  (0 ≤ (eval_batch fw model counts batch).1 ≤ (eval_batch fw model counts batch).2)%Z.
Proof.
  destruct counts as [c n]. simpl. intros Hc.
  pose proof (eq_count_bounds (Tensor.argmax <$> forward fw model (sequence batch))
                (label batch)). lia.
Qed.

(** What an evaluation that ends normally did: it measured an accuracy in
    the unit interval, shifted it into the window, updated the running
    maximum, logged the accuracy and put the model back in training mode. *)
Lemma evaluate_Ok test_loader st st' :
  evaluate fw test_loader st = Ok st' →
  ∃ acc,
    unit_float acc ∧
    st' = {| ts_model := model_train (model_eval (ts_model st));
             ts_optim := ts_optim st;
             global_step := global_step st;
             accuracies := drop 1 (accuracies st) ++ [acc];
             max_running_mean :=
               (if Float.gt (Float.mean (drop 1 (accuracies st) ++ [acc]))
                     (max_running_mean st)
                then Float.mean (drop 1 (accuracies st) ++ [acc])
                else max_running_mean st);
             epoch_loss := epoch_loss st;
             running_loss := running_loss st;
             ts_world :=
               emit EvModelTrain
                 (emit (EvAddScalar "Accuracy" acc (global_step st))
                    (emit EvModelEval (ts_world st))) |}.
Proof.
  unfold evaluate. intros Hrun.
  bind_inv Hrun. bind_inv Hrun. bind_inv Hrun. rename x0 into counts, x1 into acc.
  assert (Hcounts : (0 ≤ counts.1 ≤ counts.2)%Z).
  { revert Hx0. apply (for_loop_invariant _ (λ c, (0 ≤ c.1 ≤ c.2)%Z)); [|simpl; lia].
    intros c idxs c' Hc Hb. bind_inv Hb. injection Hb as <-.
    by apply eval_batch_counts. }
  unfold Float.truediv in Hx1.
  destruct (Z.eqb_spec counts.2 0) as [|Hne]; [discriminate|].
  injection Hx1 as <-. injection Hrun as <-.
  eexists. split; [|by rewrite slice_from_1].
  unfold unit_float. simpl. apply Q_unit_div; lia.
Qed.

(** *** One iteration of the batch loop *)

Lemma train_step_Ok lf train_loader test_loader st ix_idxs st' :
  train_step fw lf train_loader test_loader st ix_idxs = Ok st' →
  ∃ loss st1,
    global_step st1 = (global_step st + 1)%Z
    ∧ accuracies st1 = accuracies st
    ∧ max_running_mean st1 = max_running_mean st
    ∧ training (ts_model st1) = training (ts_model st)
    ∧ ts_world st1 = emit (EvAddScalar "loss" loss (global_step st)) (ts_world st)
    ∧ (if ((global_step st + 1) `mod` 5 =? 0)%Z
       then evaluate fw test_loader st1 = Ok st'
       else st' = st1).
Proof.
  unfold train_step. destruct ix_idxs as [ix idxs]. intros Hrun.
  bind_inv Hrun. rename x into batch.
  destruct (adam_step fw (ts_optim st) (ts_model st) batch) as [optim ps].
  match type of Hrun with
  | (if _ then evaluate _ _ ?s else _) = _ =>
      exists (cross_entropy fw (Nn.reduction lf)
                (forward fw (ts_model st) (sequence batch)) (label batch)), s
  end.
  repeat (split; [done|]).
  destruct (_ =? 0)%Z; [exact Hrun|by injection Hrun].
Qed.

(** *** The transitions of the loop *)

(** A transition is an epoch head, a training step without evaluation, or a
    training step that brings the counter to a multiple of five and is
    followed by an evaluation. *)
Lemma loop_step_cases train_loader test_loader st st' :
  loop_step fw train_loader test_loader st st' →
  w_fs (ts_world st') = w_fs (ts_world st)
  ∧ ((global_step st' = global_step st
      ∧ accuracies st' = accuracies st
      ∧ max_running_mean st' = max_running_mean st
      ∧ training (ts_model st') = true
      ∧ w_log (ts_world st') = w_log (ts_world st) ++ [EvModelTrain])
     ∨ (∃ loss,
          ((global_step st + 1) `mod` 5 ≠ 0)%Z
          ∧ global_step st' = (global_step st + 1)%Z
          ∧ accuracies st' = accuracies st
          ∧ max_running_mean st' = max_running_mean st
          ∧ training (ts_model st') = training (ts_model st)
          ∧ w_log (ts_world st') =
              w_log (ts_world st) ++ [EvAddScalar "loss" loss (global_step st)])
     ∨ (∃ loss acc,
          ((global_step st + 1) `mod` 5 = 0)%Z
          ∧ unit_float acc
          ∧ global_step st' = (global_step st + 1)%Z
          ∧ accuracies st' = drop 1 (accuracies st) ++ [acc]
          ∧ max_running_mean st' =
              (if Float.gt (Float.mean (accuracies st')) (max_running_mean st)
               then Float.mean (accuracies st') else max_running_mean st)
          ∧ training (ts_model st') = true
          ∧ w_log (ts_world st') =
              w_log (ts_world st)
              ++ [EvAddScalar "loss" loss (global_step st); EvModelEval;
                  EvAddScalar "Accuracy" acc (global_step st + 1);
                  EvModelTrain])).
Proof.
  intros [st0|st0 ix_idxs st0' Hstep].
  - split; [done|]. left. done.
  - apply train_step_Ok in Hstep
      as (loss & st1 & Hg & Hacc & Hmax & Htr & Hw & Hrest).
    destruct (Z.eqb_spec ((global_step st0 + 1) `mod` 5) 0) as [Hmod|Hmod].
    + apply evaluate_Ok in Hrest as (acc & Hunit & ->). simpl.
      rewrite Hw, Hg, Hacc, Hmax. simpl. split; [done|].
      right. right. exists loss, acc.
      repeat (split; [done|]). by rewrite <-!(assoc_L (++)).
    + subst st0'. rewrite Hw. simpl. split; [done|].
      right. left. exists loss. done.
Qed.

Lemma loop_step_invariant train_loader test_loader st st' evs :
  loop_step fw train_loader test_loader st st' →
  train_invariant evs st →
  ∃ evs',
    w_log (ts_world st') = w_log (ts_world st) ++ evs'
    ∧ w_fs (ts_world st') = w_fs (ts_world st)
    ∧ train_calls evs' = []
    ∧ Float.le (max_running_mean st) (max_running_mean st')
    ∧ train_invariant (evs ++ evs') st'.
Proof.
  intros Hstep (Hwin & Haccs & Hunit & Hub & Hatt & Hg & Hsteps & Hmode).
  apply loop_step_cases in Hstep as [Hfs Hcases].
  assert (Hrefl : Float.le (max_running_mean st) (max_running_mean st)).
  { destruct Hunit as [H0 _]. destruct (max_running_mean st); [done|apply Qle_refl]. }
  destruct Hcases as [(Hg' & Hacc' & Hmax' & _ & Hlog)
                     |[(loss & Hmod & Hg' & Hacc' & Hmax' & _ & Hlog)
                      |(loss & acc & Hmod & Hacc & Hg' & Hacc' & Hmax' & _ & Hlog)]].
  - exists [EvModelTrain]. rewrite Hmax'. repeat (split; [done|]).
    unfold train_invariant. rewrite accuracy_log_app, step_events_app. simpl.
    rewrite !app_nil_r, Hacc', Hmax', Hg'. repeat (split; [done|]).
    apply eval_then_train_app; [done|].
    apply eval_then_train_no_eval.
      by intros ?%list_elem_of_singleton.
  - eexists. split; [exact Hlog|]. rewrite Hmax'. repeat (split; [done|]).
    unfold train_invariant. rewrite accuracy_log_app, step_events_app. simpl.
    rewrite !app_nil_r, Hacc', Hmax', Hg'. repeat (split; [done|]).
    split; [lia|]. split.
    + rewrite expected_step_events_succ by done. rewrite Hsteps.
      destruct (Z.eqb_spec ((global_step st + 1) `mod` 5) 0); [done|done].
    + apply eval_then_train_app; [done|].
      apply eval_then_train_no_eval.
      by intros ?%list_elem_of_singleton.
  - eexists. split; [exact Hlog|]. split; [done|]. split; [done|].
    set (accs := accuracy_log evs) in *.
    assert (Hlog' : accuracy_log
              (evs ++ [EvAddScalar "loss" loss (global_step st); EvModelEval;
                       EvAddScalar "Accuracy" acc (global_step st + 1);
                       EvModelTrain]) = accs ++ [acc]).
    { by rewrite accuracy_log_app. }
    assert (Hwin' : accuracies st' = window (accs ++ [acc]) (S (length accs))).
    { by rewrite Hacc', Hwin, window_snoc. }
    assert (Haccs' : Forall unit_float (accs ++ [acc])).
    { apply Forall_app. split; [done|]. by apply Forall_singleton. }
    assert (Hmean : unit_float (Float.mean (accuracies st'))).
    { rewrite Hwin'. apply window_mean_unit; [|done].
      rewrite length_app. simpl. lia. }
    destruct Hunit as [Hr0 Hr1].
    destruct (max_running_mean st) as [|r] eqn:Hr; [done|].
    destruct (Float.mean (accuracies st')) as [|m] eqn:Hm; [by destruct Hmean|].
    destruct Hmean as [Hm0 Hm1]. simpl in Hm0, Hm1, Hr0, Hr1.
    assert (Hle : Float.le (Fin r) (max_running_mean st')
                  ∧ Float.le (Fin m) (max_running_mean st')
                  ∧ (max_running_mean st' = Fin m ∨ max_running_mean st' = Fin r)).
    { rewrite Hmax'. simpl. destruct (Qltb r m) eqn:Hcmp.
      - apply Qltb_lt in Hcmp. split; [by apply Qlt_le_weak|].
        split; [apply Qle_refl|by left].
      - apply Qltb_ge in Hcmp. split; [apply Qle_refl|]. split; [done|by right]. }
    destruct Hle as (Hrle & Hmle & Hnew). split; [exact Hrle|].
    unfold train_invariant. rewrite Hlog', step_events_app. simpl.
    rewrite length_app. simpl length. rewrite Nat.add_1_r.
    split; [exact Hwin'|]. split; [exact Haccs'|]. split.
    { destruct Hnew as [->| ->]; split; done. }
    split.
    { intros k Hk. destruct (decide (k = S (length accs))) as [->|Hne].
      - by rewrite <-Hwin', Hm.
      - rewrite window_app_le by lia.
        eapply Float_le_trans; [apply Hub; lia|exact Hrle]. }
    split.
    { right. destruct Hnew as [Hnew|Hnew].
      - exists (S (length accs)). split; [lia|].
        rewrite <-Hwin', Hm, Hnew. simpl. reflexivity.
      - destruct Hatt as [[Hnil Hzero]|(k & Hk & Heqk)].
        + exists (S (length accs)). split; [lia|].
          rewrite <-Hwin', Hm, Hnew. injection Hzero as ->. simpl.
          rewrite Hnew in Hmle. simpl in Hmle. by apply Qle_antisym.
        + exists k. split; [lia|].
          rewrite window_app_le by lia. by rewrite Hnew. }
    split; [lia|]. split.
    + rewrite Hg', expected_step_events_succ by done. rewrite Hsteps.
      destruct (Z.eqb_spec ((global_step st + 1) `mod` 5) 0); [done|done].
    + apply eval_then_train_app; [done|]. apply eval_then_train_block.
Qed.

(** *** The whole loop *)

Lemma train_epoch_rtc train_loader test_loader st epoch st' :
  train_epoch fw train_loss_function train_loader test_loader st epoch = Ok st' →
  rtc (loop_step fw train_loader test_loader) st st'.
Proof.
  unfold train_epoch. intros Hrun. bind_inv Hrun. bind_inv Hrun.
  injection Hrun as <-.
  eapply rtc_l; [apply loop_step_epoch|].
  revert Hx. apply for_loop_rtc. intros s ix_idxs s' Hstep.
  apply rtc_once. by eapply loop_step_batch.
Qed.

Lemma train_loop_rtc args train_loader test_loader st st' :
  train_loop fw args train_loader test_loader st = Ok st' →
  rtc (loop_step fw train_loader test_loader) st st'.
Proof.
  unfold train_loop. apply for_loop_rtc. intros s epoch s'.
  apply train_epoch_rtc.
Qed.

Lemma loop_rtc_invariant train_loader test_loader st st' :
  rtc (loop_step fw train_loader test_loader) st st' →
  ∀ evs, train_invariant evs st →
  ∃ evs',
    w_log (ts_world st') = w_log (ts_world st) ++ evs'
    ∧ w_fs (ts_world st') = w_fs (ts_world st)
    ∧ train_calls evs' = []
    ∧ Float.le (max_running_mean st) (max_running_mean st')
    ∧ train_invariant (evs ++ evs') st'.
Proof.
  induction 1 as [st|st st1 st' Hstep _ IH]; intros evs Hinv.
  - exists []. rewrite !app_nil_r. repeat (split; [done|]). split; [|done].
    destruct Hinv as (_ & _ & [H0 _] & _).
    destruct (max_running_mean st); [done|apply Qle_refl].
  - destruct (loop_step_invariant _ _ _ _ _ Hstep Hinv)
      as (evs1 & Hlog1 & Hfs1 & Hcalls1 & Hle1 & Hinv1).
    destruct (IH _ Hinv1) as (evs2 & Hlog2 & Hfs2 & Hcalls2 & Hle2 & Hinv2).
    exists (evs1 ++ evs2). rewrite Hlog2, Hlog1, Hfs2, Hfs1, train_calls_app,
      Hcalls1, Hcalls2, !(assoc_L (++)).
    split; [done|]. split; [done|]. split; [done|].
    split; [exact (Float_le_trans _ _ _ Hle1 Hle2)|exact Hinv2].
Qed.

(** *** The directories *)

Lemma fs_events_silent evs :
  Forall (λ e, fs_event e = true) evs →
  accuracy_log evs = [] ∧ step_events evs = [] ∧ train_calls evs = []
  ∧ EvModelEval ∉ evs.
Proof.
  induction 1 as [|e evs He _ (IH1 & IH2 & IH3 & IH4)].
  - repeat split; try done. apply not_elem_of_nil.
  - destruct e; try discriminate; simpl; repeat split; try done.
    all: by intros [?|?]%elem_of_cons.
Qed.

Lemma os_makedirs_Ok p w w' :
  os_makedirs p w = Ok w' →
  Os.makedirs p false (w_fs w) = Ok (w_fs w')
  ∧ w_log w' = w_log w ++ [EvMakedirs p].
Proof.
  unfold os_makedirs. intros Hrun. bind_inv Hrun. by injection Hrun as <-.
Qed.

Lemma SummaryWriter_Ok p w w' :
  SummaryWriter p w = Ok w' →
  Os.makedirs p true (w_fs w) = Ok (w_fs w')
  ∧ w_log w' = w_log w ++ [EvSummaryWriter p].
Proof.
  unfold SummaryWriter. intros Hrun. bind_inv Hrun. by injection Hrun as <-.
Qed.

Lemma train_setup_log args w w' :
  train_setup args w = Ok w' →
  ∃ evs, w_log w' = w_log w ++ evs ∧ Forall (λ e, fs_event e = true) evs.
Proof.
  unfold train_setup. intros Hrun. bind_inv Hrun. bind_inv Hrun.
  rename x into w1, x0 into w2.
  assert (∃ evs1, w_log w1 = w_log w ++ evs1
                  ∧ Forall (λ e, fs_event e = true) evs1) as (evs1 & Hl1 & Hf1).
  { destruct (negb _).
    - apply os_makedirs_Ok in Hx as [_ ->]. eexists. split; [done|].
      by repeat constructor.
    - injection Hx as <-. exists []. by rewrite app_nil_r. }
  apply SummaryWriter_Ok in Hx0 as [_ Hl2].
  assert (∃ evs3, w_log w' = w_log w2 ++ evs3
                  ∧ Forall (λ e, fs_event e = true) evs3) as (evs3 & Hl3 & Hf3).
  { destruct (negb (Os.isfile _ _));
      [destruct (negb (Os.isdir (checkpoint_dir args) _))|].
    - apply os_makedirs_Ok in Hrun as [_ ->]. eexists. split; [done|].
      by repeat constructor.
    - injection Hrun as <-. exists []. by rewrite app_nil_r.
    - injection Hrun as <-. exists []. by rewrite app_nil_r. }
  exists (evs1 ++ EvSummaryWriter (Os.join (log_dir args) "train") :: evs3).
  rewrite Hl3, Hl2, Hl1, <-!(assoc_L (++)). split; [done|].
  apply Forall_app. split; [done|]. by constructor.
Qed.

(** *** A whole call of [train] *)

Lemma train_Ok args model optim train_loader test_loader baseline w r w' :
  train fw args model optim train_loader test_loader baseline w = Ok (r, w') →
  ∃ w1 st evs_setup evs_loop,
    train_setup args (emit (EvTrain args model) w) = Ok w1
    ∧ rtc (loop_step fw train_loader test_loader) (train_init model optim w1) st
    ∧ r = max_running_mean st
    ∧ w' = ts_world st
    ∧ w_fs w' = w_fs w1
    ∧ Forall (λ e, fs_event e = true) evs_setup
    ∧ train_calls evs_loop = []
    ∧ w_log w' = w_log w ++ EvTrain args model :: evs_setup ++ evs_loop
    ∧ train_invariant (EvTrain args model :: evs_setup ++ evs_loop) st.
Proof.
  unfold train. intros Hrun. bind_inv Hrun. bind_inv Hrun.
  rename x into w1, x0 into st. injection Hrun as <- <-.
  destruct (train_setup_log _ _ _ Hx) as (evs_setup & Hlog1 & Hfs).
  apply train_loop_rtc in Hx0.
  destruct (fs_events_silent _ Hfs) as (Hacc0 & Hsteps0 & _ & Hnoeval).
  assert (Hinit : train_invariant (EvTrain args model :: evs_setup)
                    (train_init model optim w1)).
  { unfold train_invariant. simpl.
    change (accuracy_log (EvTrain args model :: evs_setup))
      with (accuracy_log evs_setup).
    change (step_events (EvTrain args model :: evs_setup))
      with (step_events evs_setup).
    rewrite Hacc0, Hsteps0. simpl.
    split; [done|]. split; [done|]. split; [apply unit_float_zero|].
    split; [intros k Hk; lia|]. split; [by left|]. split; [done|].
    split; [done|]. apply eval_then_train_no_eval.
    by intros [?|?]%elem_of_cons. }
  destruct (loop_rtc_invariant _ _ _ _ Hx0 _ Hinit)
    as (evs_loop & Hlog2 & Hfs2 & Hcalls & _ & Hinv).
  exists w1, st, evs_setup, evs_loop. repeat (split; [done|]). split.
  - rewrite Hlog2. simpl. rewrite Hlog1. simpl.
    by rewrite <-!(assoc_L (++)).
  - exact Hinv.
Qed.

Lemma train_init_invariant evs model optim w :
  accuracy_log evs = [] → step_events evs = [] → EvModelEval ∉ evs →
  train_invariant evs (train_init model optim w).
Proof.
  intros Hacc Hsteps Hnoeval. unfold train_invariant. rewrite Hacc, Hsteps. simpl.
  split; [done|]. split; [done|]. split; [apply unit_float_zero|].
  split; [intros k Hk; lia|]. split; [by left|]. split; [done|].
  split; [done|]. by apply eval_then_train_no_eval.
Qed.

(** *** Counting the training steps *)

Lemma for_loop_count {S A} (body : S → A → Res S) (f : S → Z) :
  (∀ s x s', body s x = Ok s' → f s' = (f s + 1)%Z) →
  ∀ l s s', for_loop body l s = Ok s' → f s' = (f s + Z.of_nat (length l))%Z.
Proof.
  intros Hbody. induction l as [|x l IH]; intros s s' Hrun; simpl in Hrun.
  - injection Hrun as <-. simpl. lia.
  - bind_inv Hrun. rewrite (IH _ _ Hrun), (Hbody _ _ _ Hx0). simpl length. lia.
Qed.

Lemma train_step_count lf train_loader test_loader st ix_idxs st' :
  train_step fw lf train_loader test_loader st ix_idxs = Ok st' →
  global_step st' = (global_step st + 1)%Z.
Proof.
  intros (loss & st1 & Hg & _ & _ & _ & _ & Hrest)%train_step_Ok.
  destruct (_ =? 0)%Z; [|by subst].
  by apply evaluate_Ok in Hrest as (acc & _ & ->).
Qed.

Lemma train_epoch_count lf train_loader test_loader st epoch st' :
  train_epoch fw lf train_loader test_loader st epoch = Ok st' →
  global_step st' =
    (global_step st
     + Z.of_nat (length (DataLoader_iter fw train_loader (IterEpoch epoch))))%Z.
Proof.
  unfold train_epoch. intros Hrun. bind_inv Hrun. bind_inv Hrun.
  injection Hrun as <-.
  apply (for_loop_count _ global_step) in Hx; [|apply train_step_count].
  rewrite Hx. unfold enumerate. by rewrite length_imap.
Qed.

(** The number of batches the epochs of a run go through. *)
Lemma train_loop_count args train_loader test_loader st st' :
  train_loop fw args train_loader test_loader st = Ok st' →
  global_step st' =
    (global_step st
     + Z.of_nat (sum_list
         ((λ epoch, length (DataLoader_iter fw train_loader (IterEpoch epoch)))
            <$> range 0 (0 + num_epochs args))))%Z.
Proof.
  unfold train_loop. generalize (range 0 (0 + num_epochs args)). intros epochs.
  revert st. induction epochs as [|e epochs IH]; intros st Hrun; simpl in Hrun.
  - injection Hrun as <-. simpl. lia.
  - bind_inv Hrun. rewrite (IH _ Hrun), (train_epoch_count _ _ _ _ _ _ Hx).
    rewrite fmap_cons.
    set (n1 := length (DataLoader_iter fw train_loader (IterEpoch e))).
    set (rest := _ <$> epochs).
    change (sum_list (n1 :: rest)) with (n1 + sum_list rest)%nat. lia.
Qed.

End TrainFacts.

(** ** The rolling accuracy *)

(** C1. A call of [train] that returns, returns the loop's
    [max_running_mean].  With [accs] the accuracies the call logged, one per
    evaluation and in order, the window starts as five zeros, each
    evaluation drops its oldest entry and appends the new accuracy, so
    after k evaluations it is [window accs k]; the returned value bounds the
    mean of every such window and is the mean of one of them (or the
    initial 0 when nothing was evaluated); it lies between 0 and 1; and
    [max_running_mean] never decreases from one state of the loop to a
    later one. *)
Theorem train_returns_max_running_mean (fw : Framework) args model optim
    train_loader test_loader baseline w r w' :
  train fw args model optim train_loader test_loader baseline w = Ok (r, w') →
  ∃ evs w1 st,
    w_log w' = w_log w ++ evs
    ∧ rtc (loop_step fw train_loader test_loader) (train_init model optim w1) st
    ∧ r = max_running_mean st
    ∧ accuracies (train_init model optim w1) = replicate 5 (Fin 0)
    ∧ max_running_mean (train_init model optim w1) = Fin 0
    ∧ (∀ s s', evaluate fw test_loader s = Ok s' →
         ∃ acc,
           accuracies s' = drop 1 (accuracies s) ++ [acc]
           ∧ w_log (ts_world s') =
               w_log (ts_world s)
               ++ [EvModelEval; EvAddScalar "Accuracy" acc (global_step s);
                   EvModelTrain])
    ∧ let accs := accuracy_log evs in
      accuracies st = window accs (length accs)
      ∧ (∀ k, 1 ≤ k ≤ length accs → Float.le (Float.mean (window accs k)) r)
      ∧ ((accs = [] ∧ r = Fin 0)
         ∨ ∃ k, 1 ≤ k ≤ length accs ∧ Float.eq r (Float.mean (window accs k)))
      ∧ unit_float r
      ∧ (∀ s1 s2,
           rtc (loop_step fw train_loader test_loader)
             (train_init model optim w1) s1 →
           rtc (loop_step fw train_loader test_loader) s1 s2 →
           Float.le (max_running_mean s1) (max_running_mean s2)).
Proof.
  intros Hrun.
  destruct (train_Ok fw _ _ _ _ _ _ _ _ _ Hrun)
    as (w1 & st & evs_setup & evs_loop & _ & Hrtc & Hr & _ & _ & _ & _ & Hlog & Hinv).
  destruct Hinv as (Hwin & _ & Hunit & Hub & Hatt & _).
  exists (EvTrain args model :: evs_setup ++ evs_loop), w1, st.
  split; [exact Hlog|]. split; [exact Hrtc|]. split; [exact Hr|].
  split; [done|]. split; [done|]. split.
  { intros s s' (acc & _ & ->)%evaluate_Ok. exists acc. split; [done|].
    simpl. by rewrite <-!(assoc_L (++)). }
  simpl. subst r. split; [exact Hwin|]. split; [exact Hub|].
  split; [exact Hatt|]. split; [exact Hunit|].
  intros s1 s2 Hs1 Hs2.
  destruct (loop_rtc_invariant fw _ _ _ _ Hs1 [])
    as (evs1 & _ & _ & _ & _ & Hinv1).
  { apply train_init_invariant; [done..|apply not_elem_of_nil]. }
  by destruct (loop_rtc_invariant fw _ _ _ _ Hs2 _ Hinv1) as (_ & _ & _ & _ & Hle & _).
Qed.

(** Two epochs of three batches: one evaluation, after the fifth step. *)
Lemma train_returns_max_running_mean_witness :
  ∃ r w',
    train toy_framework toy_args toy_model (Adam_init toy_model (Fin (1 # 100)))
      toy_loader (Some toy_loader) (Fin (1 # 2)) toy_world = Ok (r, w')
    ∧ accuracy_log (w_log w') = [Fin (2 # 3)]
    ∧ Float.eq r (Fin (2 # 15))
    ∧ unit_float r.
Proof.
  eexists _, _. split; [vm_compute; reflexivity|].
  split; [vm_compute; reflexivity|]. split; [vm_compute; reflexivity|].
  edestruct (train_returns_max_running_mean toy_framework toy_args toy_model
               (Adam_init toy_model (Fin (1 # 100))) toy_loader (Some toy_loader)
               (Fin (1 # 2)) toy_world)
    as (evs & w1 & st & _ & _ & _ & _ & _ & _ & _ & _ & _ & Hunit & _);
    [vm_compute; reflexivity|exact Hunit].
Defined.

(** ** Periodic evaluation *)

(** C4. In a call of [train] that returns, the training steps are numbered
    cumulatively over the epochs: with n the total number of batches the
    epochs went through, the log holds, in this order, the n training steps
    and, right after the g-th of them, an evaluation exactly when 5 divides
    g (the counter after its increment); there is no other evaluation.
    Every switch of the model to evaluation mode is followed by the
    accuracy record and the switch back to training mode, and an evaluation
    leaves the model in training mode. *)
Theorem train_evaluates_every_fifth_step (fw : Framework) args model optim
    train_loader test_loader baseline w r w' :
  train fw args model optim train_loader test_loader baseline w = Ok (r, w') →
  ∃ evs n,
    w_log w' = w_log w ++ evs
    ∧ n = Z.of_nat (sum_list
          ((λ epoch, length (DataLoader_iter fw train_loader (IterEpoch epoch)))
             <$> range 0 (0 + num_epochs args)))
    ∧ step_events evs = expected_step_events n
    ∧ (∀ g, Evaluation g ∈ step_events evs ↔ (1 ≤ g ≤ n)%Z ∧ (g `mod` 5 = 0)%Z)
    ∧ eval_then_train evs
    ∧ (∀ s s', evaluate fw test_loader s = Ok s' → training (ts_model s') = true).
Proof.
  intros Hrun. unfold train in Hrun. bind_inv Hrun. bind_inv Hrun.
  rename x into w1, x0 into st. injection Hrun as <- <-.
  pose proof (train_loop_count fw _ _ _ _ _ Hx0) as Hcount. simpl in Hcount.
  destruct (train_setup_log _ _ _ Hx) as (evs_setup & Hlog1 & Hfs).
  destruct (fs_events_silent _ Hfs) as (Hacc0 & Hsteps0 & _ & Hnoeval).
  apply train_loop_rtc in Hx0.
  destruct (loop_rtc_invariant fw _ _ _ _ Hx0 (EvTrain args model :: evs_setup))
    as (evs_loop & Hlog2 & _ & _ & _ & Hinv).
  { apply train_init_invariant; [done|done|]. by intros [?|?]%elem_of_cons. }
  destruct Hinv as (_ & _ & _ & _ & _ & _ & Hsteps & Hmode).
  exists ((EvTrain args model :: evs_setup) ++ evs_loop), (global_step st).
  split. { rewrite Hlog2. simpl. rewrite Hlog1. simpl. by rewrite <-!(assoc_L (++)). }
  split; [by rewrite Hcount|]. split; [exact Hsteps|]. split.
  { intros g. rewrite Hsteps. unfold expected_step_events.
    rewrite list_elem_of_join. split.
    - intros (l & Hg & (g' & -> & Hg')%list_elem_of_fmap).
      apply elem_of_seqZ in Hg'.
      apply elem_of_cons in Hg as [?|Hg]; [done|].
      destruct (Z.eqb_spec (g' `mod` 5) 0) as [Hmod|Hmod].
      + apply list_elem_of_singleton in Hg. injection Hg as ->. lia.
      + by apply elem_of_nil in Hg.
    - intros [Hg Hmod]. eexists. split; [|apply list_elem_of_fmap; exists g; split;
        [done|apply elem_of_seqZ; lia]].
      simpl. rewrite Hmod. simpl. apply elem_of_cons. right.
      by apply list_elem_of_singleton. }
  split; [exact Hmode|].
  by intros s s' (acc & _ & ->)%evaluate_Ok.
Qed.

(** Six training steps in two epochs: the only evaluation follows the
    fifth. *)
Lemma train_evaluates_every_fifth_step_witness :
  ∃ r w',
    train toy_framework toy_args toy_model (Adam_init toy_model (Fin (1 # 100)))
      toy_loader (Some toy_loader) (Fin (1 # 2)) toy_world = Ok (r, w')
    ∧ step_events (w_log w') =
        [TrainingStep 0; TrainingStep 1; TrainingStep 2; TrainingStep 3;
         TrainingStep 4; Evaluation 5; TrainingStep 5]
    ∧ eval_then_train (w_log w').
Proof.
  eexists _, _. split; [vm_compute; reflexivity|].
  split; [vm_compute; reflexivity|].
  edestruct (train_evaluates_every_fifth_step toy_framework toy_args toy_model
               (Adam_init toy_model (Fin (1 # 100))) toy_loader (Some toy_loader)
               (Fin (1 # 2)) toy_world)
    as (evs & n & Hlog & _ & _ & _ & Hmode & _); [vm_compute; reflexivity|].
  rewrite Hlog. exact Hmode.
Defined.

(** ** Directories *)

Section FileSystem.
Implicit Types (m : gmap path node) (p q rp : path).

Lemma exists_nonempty p m :
  p ≠ [] → Os.exists_ p m = bool_decide (is_Some (m !! p)).
Proof. by destruct p. Qed.

Lemma isdir_nonempty p m :
  p ≠ [] → Os.isdir p m = bool_decide (m !! p = Some Dir).
Proof. by destruct p. Qed.

Lemma reverse_cons_nonempty {A} (x : A) (l : list A) : reverse (x :: l) ≠ [].
Proof. rewrite reverse_cons. by destruct (reverse l). Qed.

Lemma new_dirs_along_refl ps m : new_dirs_along ps m m.
Proof. intros q. by left. Qed.

Lemma new_dirs_along_trans ps m1 m2 m3 :
  new_dirs_along ps m1 m2 → new_dirs_along ps m2 m3 → new_dirs_along ps m1 m3.
Proof.
  intros H12 H23 q. destruct (H23 q) as [H|(Hnone & Hdir & Hne & Hp)].
  - rewrite H. apply H12.
  - destruct (H12 q) as [H|(Hnone' & Hdir' & _)].
    + right. by rewrite <-H.
    + congruence.
Qed.

Lemma new_dirs_along_weaken ps ps' m m' :
  (∀ p, p ∈ ps → ∃ p', p' ∈ ps' ∧ p `prefix_of` p') →
  new_dirs_along ps m m' → new_dirs_along ps' m m'.
Proof.
  intros Hps H q. destruct (H q) as [?|(Hnone & Hdir & Hne & p & Hp & Hq)]; [by left|].
  right. repeat (split; [done|]).
  destruct (Hps p Hp) as (p' & Hp' & Hpp'). exists p'. split; [done|].
  by etrans.
Qed.

(** What [mkdir] does when it succeeds. *)
Lemma mkdir_rev_Ok rp m m' :
  Os.mkdir_rev rp m = Ok m' →
  rp ≠ [] ∧ m !! reverse rp = None ∧ m' = <[reverse rp := Dir]> m.
Proof.
  destruct rp as [|c rhead]; [done|]. unfold Os.mkdir_rev.
  rewrite exists_nonempty by apply reverse_cons_nonempty.
  case_bool_decide as Hex; [done|].
  destruct (Os.isdir _ m); [|by destruct (Os.exists_ _ m)].
  intros [= <-]. split; [done|]. split; [|done].
  by apply eq_None_not_Some.
Qed.


Lemma makedirs_rev_cons c rhead exist_ok m :
  Os.makedirs_rev (c :: rhead) exist_ok m =
    (match rhead with
     | [] => Ok m
     | _ :: _ =>
         if Os.exists_ (reverse rhead) m then Ok m
         else match Os.makedirs_rev rhead exist_ok m with
              | Raise FileExistsError => Ok m
              | r => r
              end
     end) ≫= λ m1,
    match Os.mkdir_rev (c :: rhead) m1 with
    | Ok m2 => Ok m2
    | Raise e =>
        if negb exist_ok || negb (Os.isdir (reverse (c :: rhead)) m1)
        then Raise e else Ok m1
    end.
Proof. done. Qed.

(** [makedirs], when it succeeds, leaves a directory at its path and has
    only added directories on the way to it. *)
Lemma makedirs_rev_Ok rp exist_ok m m' :
  Os.makedirs_rev rp exist_ok m = Ok m' →
  rp ≠ [] ∧ m' !! reverse rp = Some Dir ∧ new_dirs_along [reverse rp] m m'.
Proof.
  revert m m'. induction rp as [|c rhead IH]; intros m m' Hrun; [done|].
  split; [done|]. rewrite makedirs_rev_cons in Hrun.
  bind_inv Hrun. rename x into m1.
  assert (Hm1 : new_dirs_along [reverse (c :: rhead)] m m1).
  { destruct rhead as [|c' t]; [injection Hx as <-; apply new_dirs_along_refl|].
    destruct (Os.exists_ _ m); [injection Hx as <-; apply new_dirs_along_refl|].
    destruct (Os.makedirs_rev (c' :: t) exist_ok m) as [m1'|e] eqn:Hrec.
    - injection Hx as <-. destruct (IH _ _ Hrec) as (_ & _ & Hfr).
      revert Hfr. apply new_dirs_along_weaken. intros p ->%list_elem_of_singleton.
      eexists. split; [by apply list_elem_of_singleton|].
      rewrite (reverse_cons (c' :: t) c). by apply prefix_app_r.
    - destruct e; try discriminate. injection Hx as <-. apply new_dirs_along_refl. }
  destruct (Os.mkdir_rev (c :: rhead) m1) as [m2|e] eqn:Hmk.
  - injection Hrun as <-. apply mkdir_rev_Ok in Hmk as (_ & Hnone & ->).
    split; [apply lookup_insert_eq|].
    eapply new_dirs_along_trans; [exact Hm1|].
    intros q. destruct (decide (q = reverse (c :: rhead))) as [->|Hne].
    + right. rewrite lookup_insert_eq. repeat (split; [done|]).
      split; [apply reverse_cons_nonempty|].
      eexists. split; [by apply list_elem_of_singleton|done].
    + left. by rewrite lookup_insert_ne.
  - destruct (negb exist_ok || negb (Os.isdir _ m1)) eqn:Hsw; [done|].
    injection Hrun as <-. apply orb_false_elim in Hsw as [_ Hdir].
    apply negb_false_iff in Hdir.
    rewrite isdir_nonempty in Hdir by apply reverse_cons_nonempty.
    by apply bool_decide_eq_true in Hdir.
Qed.


End FileSystem.

Section TrainDirectories.
Context (fw : Framework).
Implicit Types (m : gmap path node) (p q : path).

Lemma makedirs_Ok p exist_ok m m' :
  Os.makedirs p exist_ok m = Ok m' →
  p ≠ [] ∧ m' !! p = Some Dir ∧ new_dirs_along [p] m m'.
Proof.
  unfold Os.makedirs. intros (Hne & Hdir & Hfr)%makedirs_rev_Ok.
  rewrite reverse_involutive in Hdir, Hfr. split; [|done].
  intros ->. by apply Hne.
Qed.


Lemma new_dirs_preserved ps m m' q x :
  new_dirs_along ps m m' → m !! q = Some x → m' !! q = Some x.
Proof. intros Hfr Hq. destruct (Hfr q) as [->|(? & _)]; congruence. Qed.






Lemma isdir_true_Some p m : p ≠ [] → Os.isdir p m = true ↔ m !! p = Some Dir.
Proof.
  intros Hne. rewrite isdir_nonempty by done. apply bool_decide_eq_true.
Qed.






(** The training loop itself leaves the file system alone and emits only
    its own events. *)
Lemma loop_rtc_fs train_loader test_loader st st' :
  rtc (loop_step fw train_loader test_loader) st st' →
  ∃ evs,
    w_log (ts_world st') = w_log (ts_world st) ++ evs
    ∧ w_fs (ts_world st') = w_fs (ts_world st)
    ∧ Forall (λ e, loop_event e = true) evs.
Proof.
  induction 1 as [st|st st1 st' Hstep _ (evs2 & Hlog2 & Hfs2 & Hev2)].
  - exists []. by rewrite app_nil_r.
  - apply loop_step_cases in Hstep as [Hfs Hcases].
    assert (∃ evs1, w_log (ts_world st1) = w_log (ts_world st) ++ evs1
                    ∧ Forall (λ e, loop_event e = true) evs1)
      as (evs1 & Hlog1 & Hev1).
    { destruct Hcases as [(_ & _ & _ & _ & Hlog)
                         |[(loss & _ & _ & _ & _ & _ & Hlog)
                          |(loss & acc & _ & _ & _ & _ & _ & _ & Hlog)]];
        eexists; (split; [exact Hlog|]); by repeat constructor. }
    exists (evs1 ++ evs2). rewrite Hlog2, Hlog1, Hfs2, Hfs, <-(assoc_L (++)).
    split; [done|]. split; [done|]. by apply Forall_app.
Qed.

Lemma loop_events_silent evs :
  Forall (λ e, loop_event e = true) evs →
  train_calls evs = [] ∧ done_perfs evs = []
  ∧ Forall (λ e, fs_event e = false) evs.
Proof.
  induction 1 as [|e evs He _ (IH1 & IH2 & IH3)]; [done|].
  destruct e; try discriminate; simpl; repeat split; try done.
  all: by constructor.
Qed.

Lemma fs_events_no_print evs :
  Forall (λ e, fs_event e = true) evs → done_perfs evs = [].
Proof.
  induction 1 as [|e evs He _ IH]; [done|]. by destruct e.
Qed.

End TrainDirectories.




(** ** The grid search *)

Lemma for_loop_fmap {S A B} (g : A → B) (body : S → B → Res S) (l : list A) (s : S) :
  for_loop body (g <$> l) s = for_loop (λ s x, body s (g x)) l s.
Proof.
  revert s. induction l as [|x l IH]; intros s; [done|].
  simpl. destruct (body s (g x)); [apply IH|done].
Qed.

(** Nested loops run through the pairs of the two ranges in order. *)
Lemma for_loop_nested {S A B} (inner : A → list B) (body : A → S → B → Res S)
    (l : list A) (s : S) :
  for_loop (λ s x, for_loop (body x) (inner x) s) l s =
  for_loop (λ s p, body p.1 s p.2) (x ← l; (x,.) <$> inner x) s.
Proof.
  revert s. induction l as [|x l IH]; intros s; [done|].
  simpl. rewrite for_loop_app, for_loop_fmap. simpl.
  destruct (for_loop (body x) (inner x) s); [apply IH|done].
Qed.

Section GridFacts.
Context (fw : Framework).

(** What a call of [train] that returns adds to the log, and the range of
    its result. *)
Lemma train_log args model optim train_loader test_loader baseline w r w' :
  train fw args model optim train_loader test_loader baseline w = Ok (r, w') →
  unit_float r
  ∧ ∃ evs, w_log w' = w_log w ++ EvTrain args model :: evs
           ∧ train_calls evs = [] ∧ done_perfs evs = [].
Proof.
  intros Hrun. split.
  { apply train_Ok in Hrun
      as (w1 & st & e1 & e2 & _ & _ & -> & _ & _ & _ & _ & _ & Hinv).
    by destruct Hinv as (_ & _ & Hunit & _). }
  unfold train in Hrun. bind_inv Hrun. bind_inv Hrun.
  rename x into w1, x0 into st. injection Hrun as <- <-.
  destruct (train_setup_log _ _ _ Hx) as (evs1 & Hlog1 & Hev1).
  apply train_loop_rtc, (loop_rtc_fs fw) in Hx0 as (evs2 & Hlog2 & _ & Hev2).
  simpl in Hlog1, Hlog2.
  destruct (fs_events_silent _ Hev1) as (_ & _ & Hc1 & _).
  apply fs_events_no_print in Hev1.
  apply loop_events_silent in Hev2 as (Hc2 & Hp2 & _).
  exists (evs1 ++ evs2). split.
  - rewrite Hlog2, Hlog1. by rewrite <-!(assoc_L (++)).
  - unfold done_perfs in *. rewrite train_calls_app, omap_app, Hc1, Hc2, Hev1, Hp2.
    done.
Qed.

(** One pass through the body of the innermost loop. *)
Lemma grid_body_Ok train_dataset val_dataset baseline lr' batch_size' st
    hidden_size' st' :
  grid_body fw train_dataset val_dataset baseline lr' batch_size' st hidden_size'
    = Ok st' →
  let args :=
    set_hidden_size hidden_size'
      (set_lr lr' (set_batch_size batch_size' (gs_args st))) in
  let model :=
    LSTMClassifier_init fw 11 (cap_len args) (hidden_size args) None
      (Some (num_lstm_layers args)) (Some (num_linear_layers args - 1)%Z)
      (Some (dropout args)) in
  ∃ perf evs,
    unit_float perf
    ∧ w_log (gs_world st') = w_log (gs_world st) ++ evs
    ∧ train_calls evs = [(args, model)]
    ∧ done_perfs evs = [perf]
    ∧ (∃ train_loader val_loader w1,
         train fw args model (Adam_init model (lr args)) train_loader
           (Some val_loader) baseline (gs_world st) = Ok (perf, w1))
    ∧ steps st' = (steps st + 1)%Z
    ∧ total_steps st' = total_steps st
    ∧ gs_args st' = args
    ∧ (max_perf st', best_args st') =
        best_step (max_perf st, best_args st)
          ((lr', batch_size', hidden_size'), perf).
Proof.
  intros Hrun args model. unfold grid_body in Hrun.
  bind_inv Hrun. bind_inv Hrun. bind_inv Hrun.
  destruct x1 as [perf w1]. pose proof Hx1 as Htrain.
  apply train_log in Hx1 as (Hunit & evs & Hlog & Hcalls & Hprints).
  exists perf, (EvTrain args model :: evs
                ++ [EvPrintDone (steps st + 1) (total_steps st) perf]).
  split; [exact Hunit|].
  assert (Hlog' : w_log (gs_world st') =
    w_log (gs_world st)
    ++ EvTrain args model
       :: evs ++ [EvPrintDone (steps st + 1) (total_steps st) perf]).
  { unfold best_step in *.
    destruct (Float.gt perf (max_perf st)); injection Hrun as <-; simpl;
      rewrite Hlog; by rewrite <-!(assoc_L (++)). }
  split; [exact Hlog'|]. split.
  { change (train_calls (EvTrain args model :: ?l))
      with ((args, model) :: train_calls l).
    by rewrite train_calls_app, Hcalls. }
  split.
  { change (done_perfs (EvTrain args model :: ?l)) with (done_perfs l).
    unfold done_perfs in *. by rewrite omap_app, Hprints. }
  split; [by eexists _, _, _|].
  unfold best_step. simpl.
  destruct (Float.gt perf (max_perf st)); by injection Hrun as <-.
Qed.

(** The three nested loops are one loop over the points of the grid. *)
Lemma grid_search_flat train_dataset val_dataset baseline st :
  grid_search fw train_dataset val_dataset baseline st =
  for_loop
    (λ st (pt : point),
       grid_body fw train_dataset val_dataset baseline pt.1.1 pt.1.2 st pt.2)
    grid_points st.
Proof.
  unfold grid_search.
  rewrite (for_loop_nested (λ _, batch_sizes)
             (λ lr' st batch_size',
                for_loop (grid_body fw train_dataset val_dataset baseline lr'
                            batch_size') hidden_sizes st)).
  rewrite (for_loop_nested (λ _, hidden_sizes)
             (λ (p : pyfloat * Z) st hidden_size',
                grid_body fw train_dataset val_dataset baseline p.1 p.2 st
                  hidden_size')).
  done.
Qed.

End GridFacts.

Section GridLoop.
Context (fw : Framework).

(** The model the driver builds for the hyperparameters [a]. *)
Lemma grid_loop_Ok train_dataset val_dataset baseline (pts : list point) :
  ∀ st st',
    for_loop
      (λ st (pt : point),
         grid_body fw train_dataset val_dataset baseline pt.1.1 pt.1.2 st pt.2)
      pts st = Ok st' →
    ∃ evs,
      w_log (gs_world st') = w_log (gs_world st) ++ evs
      ∧ length (done_perfs evs) = length pts
      ∧ Forall unit_float (done_perfs evs)
      ∧ point_of_call <$> train_calls evs = pts
      ∧ Forall (λ c : Args * LSTMClassifier,
                  c.2 = LSTMClassifier_init fw 11 (cap_len c.1) (hidden_size c.1)
                          None (Some (num_lstm_layers c.1))
                          (Some (num_linear_layers c.1 - 1)%Z)
                          (Some (dropout c.1)))
          (train_calls evs)
      ∧ Forall2 (λ (c : Args * LSTMClassifier) (perf : pyfloat),
                   ∃ train_loader val_loader w0 w1,
                     train fw c.1 c.2 (Adam_init c.2 (lr c.1)) train_loader
                       (Some val_loader) baseline w0 = Ok (perf, w1))
          (train_calls evs) (done_perfs evs)
      ∧ steps st' = (steps st + Z.of_nat (length pts))%Z
      ∧ total_steps st' = total_steps st
      ∧ (max_perf st', best_args st') =
          foldl best_step (max_perf st, best_args st)
            (zip pts (done_perfs evs)).
Proof.
  induction pts as [|[[lr' bs'] hs'] pts IH]; intros st st' Hrun; simpl in Hrun.
  - injection Hrun as <-. exists []. rewrite app_nil_r. simpl.
    do 5 (split; [done|]). split; [constructor|]. split; [lia|done].
  - bind_inv Hrun. rename x into st1.
    apply grid_body_Ok in Hx
      as (perf & evs1 & Hunit & Hlog1 & Hcalls1 & Hperfs1 & Htrain1 & Hsteps1
          & Htot1 & _ & Hbest1).
    destruct (IH _ _ Hrun)
      as (evs2 & Hlog2 & Hlen2 & Hunit2 & Hpts2 & Hmodels2 & Htrain2 & Hsteps2
          & Htot2 & Hbest2).
    exists (evs1 ++ evs2). unfold done_perfs in *.
    rewrite train_calls_app, omap_app, Hcalls1, Hperfs1.
    split. { rewrite Hlog2, Hlog1. by rewrite <-(assoc_L (++)). }
    split; [simpl; by rewrite Hlen2|].
    split; [by constructor|].
    split; [by rewrite fmap_app, Hpts2|].
    split; [by constructor|].
    split.
    { constructor; [|exact Htrain2].
      destruct Htrain1 as (tl & vl & w1 & Htrain1). by exists tl, vl, (gs_world st), w1. }
    split; [rewrite Hsteps2, Hsteps1; simpl length; lia|].
    split; [by rewrite Htot2|].
    rewrite Hbest2. simpl. by rewrite Hbest1.
Qed.

(** The script up to the grid search. *)
Lemma main_Ok args full_dataset w g :
  main fw args full_dataset w = Ok g →
  ∃ train_dataset val_dataset baseline st0,
    grid_search fw train_dataset val_dataset baseline st0 = Ok g
    ∧ gs_world st0 = w ∧ steps st0 = 0%Z ∧ total_steps st0 = 24%Z
    ∧ max_perf st0 = Fin 0 ∧ best_args st0 = [].
Proof.
  unfold main. intros Hrun. do 6 bind_inv Hrun.
  eexists _, _, _, _. split; [exact Hrun|]. done.
Qed.

End GridLoop.

(** *** The running best *)

Lemma best_fold_spec (runs : list (point * pyfloat)) :
  Forall (λ run, unit_float run.2) runs →
  ∀ (q0 : Q) (b0 : list pyval),
    (foldl best_step (Fin q0, b0) runs = (Fin q0, b0)
     ∧ ∀ run, run ∈ runs → Float.le run.2 (Fin q0))
    ∨ ∃ i pt r,
        runs !! i = Some (pt, r)
        ∧ foldl best_step (Fin q0, b0) runs = (r, point_args pt)
        ∧ Float.lt (Fin q0) r
        ∧ (∀ j run, j < i → runs !! j = Some run → Float.lt run.2 r)
        ∧ (∀ run, run ∈ runs → Float.le run.2 r).
Proof.
  induction 1 as [|[pt r] runs [Hr0 Hr1] _ IH]; intros q0 b0.
  { left. split; [done|]. by intros run ?%elem_of_nil. }
  destruct r as [|q]; [done|]. simpl in Hr0, Hr1.
  assert (Hstep : best_step (Fin q0, b0) (pt, Fin q) =
                  if Qltb q0 q then (Fin q, point_args pt) else (Fin q0, b0))
    by done.
  cbn [foldl]. rewrite Hstep. clear Hstep. destruct (Qltb q0 q) eqn:Hcmp.
  - apply Qltb_lt in Hcmp. right.
    destruct (IH q (point_args pt)) as [[Hres Hle]|(i & pt' & r' & Hi & Hres & Hlt & Hbefore & Hle)].
    + exists 0, pt, (Fin q). split; [done|]. split; [exact Hres|].
      split; [exact Hcmp|]. split; [intros j run Hj; lia|].
      intros run [->|Hin]%elem_of_cons; [apply Qle_refl|by apply Hle].
    + exists (S i), pt', r'. split; [exact Hi|]. split; [exact Hres|].
      destruct r' as [|q']; [done|]. simpl in Hlt. split.
      { simpl. by etrans. }
      split.
      * intros [|j] run Hj Hrun; simpl in Hrun.
        -- by injection Hrun as <-.
        -- apply (Hbefore j); [lia|done].
      * intros run [->|Hin]%elem_of_cons; [by apply Qlt_le_weak|by apply Hle].
  - apply Qltb_ge in Hcmp.
    destruct (IH q0 b0) as [[Hres Hle]|(i & pt' & r' & Hi & Hres & Hlt & Hbefore & Hle)].
    + left. split; [exact Hres|].
      intros run [->|Hin]%elem_of_cons; [exact Hcmp|by apply Hle].
    + right. exists (S i), pt', r'. split; [exact Hi|]. split; [exact Hres|].
      split; [exact Hlt|]. destruct r' as [|q']; [done|]. simpl in Hlt. split.
      * intros [|j] run Hj Hrun; simpl in Hrun.
        -- injection Hrun as <-. simpl. by eapply Qle_lt_trans.
        -- apply (Hbefore j); [lia|done].
      * intros run [->|Hin]%elem_of_cons; [|by apply Hle].
        simpl. apply Qlt_le_weak. by eapply Qle_lt_trans.
Qed.

(** *** The facts about the grid itself *)

Lemma grid_points_explicit :
  grid_points =
    [
         (Fin (1 # 10), 32, 12)%Z; (Fin (1 # 10), 32, 24)%Z;
         (Fin (1 # 10), 32, 48)%Z; (Fin (1 # 10), 32, 64)%Z;
         (Fin (1 # 10), 64, 12)%Z; (Fin (1 # 10), 64, 24)%Z;
         (Fin (1 # 10), 64, 48)%Z; (Fin (1 # 10), 64, 64)%Z;
         (Fin (1 # 100), 32, 12)%Z; (Fin (1 # 100), 32, 24)%Z;
         (Fin (1 # 100), 32, 48)%Z; (Fin (1 # 100), 32, 64)%Z;
         (Fin (1 # 100), 64, 12)%Z; (Fin (1 # 100), 64, 24)%Z;
         (Fin (1 # 100), 64, 48)%Z; (Fin (1 # 100), 64, 64)%Z;
         (Fin (1 # 1000), 32, 12)%Z; (Fin (1 # 1000), 32, 24)%Z;
         (Fin (1 # 1000), 32, 48)%Z; (Fin (1 # 1000), 32, 64)%Z;
         (Fin (1 # 1000), 64, 12)%Z; (Fin (1 # 1000), 64, 24)%Z;
         (Fin (1 # 1000), 64, 48)%Z; (Fin (1 # 1000), 64, 64)%Z].
Proof. reflexivity. Qed.

Lemma grid_points_elem (lr' : pyfloat) (batch_size' hidden_size' : Z) :
  (lr', batch_size', hidden_size') ∈ grid_points ↔
    lr' ∈ [Fin (1 # 10); Fin (1 # 100); Fin (1 # 1000)]
    ∧ batch_size' ∈ [32; 64]%Z
    ∧ hidden_size' ∈ [12; 24; 48; 64]%Z.
Proof.
  unfold grid_points.
  change lrs with [Fin (1 # 10); Fin (1 # 100); Fin (1 # 1000)].
  unfold batch_sizes, hidden_sizes. split.
  - intros (lr0 & (bs0 & (hs0 & Heq%list_elem_of_singleton & Hhs)%list_elem_of_bind
                   & Hbs)%list_elem_of_bind & Hlr)%list_elem_of_bind.
    by injection Heq as -> -> ->.
  - intros (Hlr & Hbs & Hhs).
    apply list_elem_of_bind. exists lr'. split; [|done].
    apply list_elem_of_bind. exists batch_size'. split; [|done].
    apply list_elem_of_bind. exists hidden_size'. split; [|done].
    by apply list_elem_of_singleton.
Qed.

Lemma grid_points_NoDup : NoDup grid_points.
Proof. apply (bool_decide_unpack (NoDup grid_points)). vm_compute. exact I. Qed.

(** C2. A run of the script that completes has called [train] once for
    every point of the grid, in the order of [grid_points]: learning rates
    0.1, 0.01, 0.001 outermost, batch sizes 32, 64 in the middle, hidden
    sizes 12, 24, 48, 64 innermost, with a model built for the point's
    hyperparameters; no combination occurs twice; there are 24 calls, and
    [steps] ends equal to [total_steps], which is 24. *)
Theorem grid_search_runs (fw : Framework) args full_dataset w g :
  main fw args full_dataset w = Ok g →
  ∃ evs,
    w_log (gs_world g) = w_log w ++ evs
    ∧ point_of_call <$> train_calls evs = grid_points
    ∧ Forall (λ c : Args * LSTMClassifier,
                c.2 = LSTMClassifier_init fw 11 (cap_len c.1) (hidden_size c.1)
                        None (Some (num_lstm_layers c.1))
                        (Some (num_linear_layers c.1 - 1)%Z)
                        (Some (dropout c.1)))
        (train_calls evs)
    ∧ length (train_calls evs) = 24
    ∧ steps g = 24%Z
    ∧ total_steps g = 24%Z
    ∧ NoDup grid_points
    ∧ (∀ (lr' : pyfloat) (batch_size' hidden_size' : Z),
         (lr', batch_size', hidden_size') ∈ grid_points ↔
           lr' ∈ [Fin (1 # 10); Fin (1 # 100); Fin (1 # 1000)]
           ∧ batch_size' ∈ [32; 64]%Z
           ∧ hidden_size' ∈ [12; 24; 48; 64]%Z)
    ∧ (∀ i j lr1 bs1 hs1 lr2 bs2 hs2,
         grid_points !! i = Some (lr1, bs1, hs1) →
         grid_points !! j = Some (lr2, bs2, hs2) →
         i < j →
         Float.lt lr2 lr1
         ∨ (lr1 = lr2 ∧ (bs1 < bs2)%Z)
         ∨ (lr1 = lr2 ∧ bs1 = bs2 ∧ (hs1 < hs2)%Z)).
Proof.
  intros (td & vd & b & st0 & Hrun & Hw & Hsteps & Htot & _)%main_Ok.
  rewrite grid_search_flat in Hrun.
  apply grid_loop_Ok in Hrun
    as (evs & Hlog & _ & _ & Hpts & Hmodels & _ & Hsteps' & Htot' & _).
  exists evs. rewrite <-Hw. split; [exact Hlog|]. split; [exact Hpts|].
  split; [exact Hmodels|]. split.
  { rewrite <-(length_fmap point_of_call), Hpts. reflexivity. }
  split; [rewrite Hsteps', Hsteps; reflexivity|].
  split; [by rewrite Htot'|]. split; [apply grid_points_NoDup|].
  split; [apply grid_points_elem|].
  intros i j lr1 bs1 hs1 lr2 bs2 hs2 Hi Hj Hij.
  rewrite grid_points_explicit in Hi, Hj.
  assert (j < 24) by (apply lookup_lt_Some in Hj; simpl in Hj; lia).
  do 24 (destruct i as [|i]; [
    injection Hi as <- <- <-;
    do 24 (destruct j as [|j]; [
      first [lia | injection Hj as <- <- <-; simpl;
                   first [left; reflexivity
                         | right; left; split; [reflexivity|lia]
                         | right; right; split; [reflexivity|split; [reflexivity|lia]]]]|]);
    lia|]).
  lia.
Qed.

(** The script on four examples: 24 runs. *)
Lemma grid_search_runs_witness :
  ∃ g,
    main toy_framework toy_script_args toy_full_dataset toy_world = Ok g
    ∧ steps g = 24%Z
    ∧ length (train_calls (w_log (gs_world g))) = 24.
Proof.
  eexists. split; [vm_compute; reflexivity|]. split; [reflexivity|].
  edestruct (grid_search_runs toy_framework toy_script_args toy_full_dataset
               toy_world) as (evs & Hlog & _ & _ & Hlen & _);
    [vm_compute; reflexivity|].
  rewrite Hlog. exact Hlen.
Defined.

(** C3. After a run of the script that completes, with [perfs] the 24
    performances of the runs in order, each the value its call of [train]
    returned: [max_perf] bounds every one of them
    and is at least 0; if none exceeds 0 then [max_perf] is the initial 0.
    and [best_args] is still the empty list; otherwise [max_perf] is the
    performance of some run i, that run is the first to reach it (every
    earlier run is strictly below), and [best_args] holds the learning
    rate, batch size and hidden size of the i-th grid point. *)
Theorem grid_search_best (fw : Framework) args full_dataset w g :
  main fw args full_dataset w = Ok g →
  ∃ evs,
    w_log (gs_world g) = w_log w ++ evs
    ∧ let perfs := done_perfs evs in
      length perfs = 24
      ∧ Forall2 (λ (c : Args * LSTMClassifier) (perf : pyfloat),
                   ∃ train_loader val_loader baseline w0 w1,
                     train fw c.1 c.2 (Adam_init c.2 (lr c.1)) train_loader
                       (Some val_loader) baseline w0 = Ok (perf, w1))
          (train_calls evs) perfs
      ∧ (∀ i r, perfs !! i = Some r → Float.le r (max_perf g))
      ∧ Float.le (Fin 0) (max_perf g)
      ∧ ((∀ i r, perfs !! i = Some r → Float.le r (Fin 0)) →
           max_perf g = Fin 0 ∧ best_args g = [])
      ∧ ((∃ i r, perfs !! i = Some r ∧ Float.lt (Fin 0) r) →
           ∃ i lr' batch_size' hidden_size',
             grid_points !! i = Some (lr', batch_size', hidden_size')
             ∧ perfs !! i = Some (max_perf g)
             ∧ best_args g = [PyFloat lr'; PyInt batch_size'; PyInt hidden_size']
             ∧ ∀ j r, j < i → perfs !! j = Some r → Float.lt r (max_perf g)).
Proof.
  intros (td & vd & b & st0 & Hrun & Hw & _ & _ & Hmax0 & Hbest0)%main_Ok.
  rewrite grid_search_flat in Hrun.
  apply grid_loop_Ok in Hrun
    as (evs & Hlog & Hlen & Hunit & _ & _ & Hreturned & _ & _ & Hbest).
  rewrite Hmax0, Hbest0 in Hbest.
  exists evs. rewrite <-Hw. split; [exact Hlog|]. simpl.
  set (perfs := done_perfs evs) in *. split; [exact Hlen|].
  split.
  { eapply Forall2_impl; [exact Hreturned|].
    intros c r (tl & vl & w0 & w1 & Htrain). by exists tl, vl, b, w0, w1. }
  assert (Hzip : ∀ i r, perfs !! i = Some r →
                   ∃ pt, zip grid_points perfs !! i = Some (pt, r)).
  { intros i r Hi. destruct (lookup_lt_is_Some_2 grid_points i) as [pt Hpt].
    { rewrite <-Hlen. by eapply lookup_lt_Some. }
    exists pt. apply lookup_zip_with_Some. by exists pt, r. }
  assert (Hunzip : ∀ i pt r, zip grid_points perfs !! i = Some (pt, r) →
                     grid_points !! i = Some pt ∧ perfs !! i = Some r).
  { intros i pt r (pt' & r' & [= -> ->] & ? & ?)%lookup_zip_with_Some. done. }
  destruct (best_fold_spec (zip grid_points perfs)) with (q0 := 0%Q) (b0 := @nil pyval)
    as [[Hres Hle]|(i & pt & r & Hi & Hres & Hlt & Hbefore & Hle)].
  { apply Forall_forall. intros [pt r] [i Hi]%list_elem_of_lookup_1.
    apply Hunzip in Hi as [_ Hi]. rewrite Forall_forall in Hunit.
    apply Hunit. by eapply list_elem_of_lookup_2. }
  - rewrite Hres in Hbest. injection Hbest as -> ->.
    assert (Hall : ∀ i r, perfs !! i = Some r → Float.le r (Fin 0)).
    { intros i r [pt Hi]%Hzip. apply (Hle (pt, r)). by eapply list_elem_of_lookup_2. }
    split; [exact Hall|]. split; [apply Qle_refl|]. split; [done|].
    intros (i & r & Hi & Hpos). apply Hall in Hi.
    destruct r as [|q]; [done|]. simpl in Hi, Hpos.
    destruct (Qlt_not_le _ _ Hpos Hi).
  - rewrite Hres in Hbest. injection Hbest as -> ->.
    apply Hunzip in Hi as [Hpt Hr].
    assert (Hall : ∀ j r', perfs !! j = Some r' → Float.le r' r).
    { intros j r' [pt' Hj]%Hzip. apply (Hle (pt', r')). by eapply list_elem_of_lookup_2. }
    split; [exact Hall|]. split.
    { destruct r as [|q]; [done|]. simpl in *. by apply Qlt_le_weak. }
    split.
    { intros Hnone. apply Hnone in Hr. destruct r as [|q]; [done|].
      simpl in Hr, Hlt. destruct (Qlt_not_le _ _ Hlt Hr). }
    intros _. destruct pt as [[lr' bs'] hs']. exists i, lr', bs', hs'.
    split; [exact Hpt|]. split; [exact Hr|]. split; [done|].
    intros j r' Hj [pt' Hj']%Hzip. by apply (Hbefore j (pt', r')).
Qed.

(** On the toy data every run scores 2/15; the first grid point keeps the
    title. *)
Lemma grid_search_best_witness :
  ∃ g,
    main toy_framework toy_script_args toy_full_dataset toy_world = Ok g
    ∧ Float.eq (max_perf g) (Fin (2 # 15))
    ∧ best_args g = [PyFloat (Fin (1 # 10)); PyInt 32; PyInt 12]
    ∧ length (done_perfs (w_log (gs_world g))) = 24.
Proof.
  eexists. split; [vm_compute; reflexivity|].
  split; [vm_compute; reflexivity|]. split; [vm_compute; reflexivity|].
  edestruct (grid_search_best toy_framework toy_script_args toy_full_dataset
               toy_world) as (evs & Hlog & Hlen & _);
    [vm_compute; reflexivity|].
  rewrite Hlog. exact Hlen.
Defined.

(** ** The classifier *)

Section ClassifierFacts.
Context (fw : Framework).

Lemma nn_Linear_features k i o :
  Nn.in_features (nn_Linear fw k i o) = i
  ∧ Nn.out_features (nn_Linear fw k i o) = o.
Proof. unfold nn_Linear. by destruct (linear_reset_parameters fw k i o). Qed.

Lemma length_linear_apply l x :
  length (linear_apply l x) = Z.to_nat (Nn.out_features l).
Proof. unfold linear_apply. by rewrite length_fmap, length_seq. Qed.

Lemma sequential_snoc layers ly x :
  sequential (layers ++ [ly]) x = layer_apply ly (sequential layers x).
Proof. unfold sequential. by rewrite foldl_app. Qed.

(** The logits of a network whose last layer is linear have that layer's
    width. *)
Lemma forward_width (m : LSTMClassifier) layers l x :
  linear m = layers ++ [Nn.LinearLayer l] →
  Forall (λ row, length row = Z.to_nat (Nn.out_features l)) (forward fw m x).
Proof.
  intros Hlin. unfold forward.
  destruct (lstm_forward fw (lstm m) (training m) x) as [out [h c]].
  rewrite Hlin, sequential_snoc. simpl. apply Forall_fmap, Forall_true.
  intros row. apply length_linear_apply.
Qed.

Lemma LSTMClassifier_init_default input_size seq_size h_size layers hidden drop :
  let m := LSTMClassifier_init fw input_size seq_size h_size None layers hidden
             drop in
  n_classes m = 2%Z
  ∧ ∃ front l,
      linear m = front ++ [Nn.LinearLayer l]
      ∧ Nn.in_features l = h_size
      ∧ Nn.out_features l = 2%Z.
Proof.
  simpl. split; [done|]. eexists _, _. split; [done|]. apply nn_Linear_features.
Qed.

(** The loss a training step logs is the cross-entropy, with the criterion's
    reduction, of the logits of the batch. *)
Lemma train_step_loss lf train_loader test_loader st ix idxs st' :
  train_step fw lf train_loader test_loader st (ix, idxs) = Ok st' →
  ∃ batch,
    DataLoader_fetch train_loader idxs = Ok batch
    ∧ EvAddScalar "loss"
        (cross_entropy fw (Nn.reduction lf)
           (forward fw (ts_model st) (sequence batch)) (label batch))
        (global_step st)
      ∈ w_log (ts_world st').
Proof.
  unfold train_step. intros Hrun. bind_inv Hrun. rename x into batch.
  exists batch. split; [done|].
  destruct (adam_step fw (ts_optim st) (ts_model st) batch) as [optim ps].
  destruct (_ =? 0)%Z.
  - apply evaluate_Ok in Hrun as (acc & _ & ->). simpl.
    rewrite <-!(assoc_L (++)). apply elem_of_app. right. by left.
  - injection Hrun as <-. simpl. apply elem_of_app. right. by left.
Qed.

End ClassifierFacts.

(** C7. The classifier has two classes.  A model built without the
    [n_classes] argument has [n_classes = 2] and ends in a linear layer
    from the hidden size to 2 outputs.  In a run of the script that
    completes, every model handed to [train] is such a model for the run's
    hidden size, and its logits have two entries per example.  The
    criterion of [train] is the cross-entropy with reduction 'mean', and
    the loss of a training step is that criterion on the logits of the
    batch. *)
Theorem classifier_is_binary (fw : Framework) args full_dataset w g :
  main fw args full_dataset w = Ok g →
  (∀ input_size seq_size h_size layers hidden drop,
     let m := LSTMClassifier_init fw input_size seq_size h_size None layers
                hidden drop in
     n_classes m = 2%Z
     ∧ ∃ front l,
         linear m = front ++ [Nn.LinearLayer l]
         ∧ Nn.in_features l = h_size ∧ Nn.out_features l = 2%Z)
  ∧ (∃ evs,
       w_log (gs_world g) = w_log w ++ evs
       ∧ length (train_calls evs) = 24
       ∧ ∀ a m, (a, m) ∈ train_calls evs →
           n_classes m = 2%Z
           ∧ (∃ front l,
                linear m = front ++ [Nn.LinearLayer l]
                ∧ Nn.in_features l = hidden_size a
                ∧ Nn.out_features l = 2%Z)
           ∧ ∀ x, Forall (λ row, length row = 2) (forward fw m x))
  ∧ Nn.reduction train_loss_function = Nn.ReductionMean
  ∧ (∀ train_loader test_loader st ix idxs st',
       train_step fw train_loss_function train_loader test_loader st (ix, idxs)
         = Ok st' →
       ∃ batch,
         DataLoader_fetch train_loader idxs = Ok batch
         ∧ EvAddScalar "loss"
             (cross_entropy fw Nn.ReductionMean
                (forward fw (ts_model st) (sequence batch)) (label batch))
             (global_step st)
           ∈ w_log (ts_world st')).
Proof.
  intros Hrun. split; [apply LSTMClassifier_init_default|]. split.
  - apply main_Ok in Hrun as (td & vd & b & st0 & Hrun & Hw & _).
    rewrite grid_search_flat in Hrun.
    apply grid_loop_Ok in Hrun as (evs & Hlog & _ & _ & Hpts & Hmodels & _).
    exists evs. rewrite <-Hw. split; [exact Hlog|]. split.
    { rewrite <-(length_fmap point_of_call), Hpts. reflexivity. }
    intros a m Hin. rewrite Forall_forall in Hmodels.
    specialize (Hmodels _ Hin). simpl in Hmodels. subst m.
    destruct (LSTMClassifier_init_default fw 11 (cap_len a) (hidden_size a)
                (Some (num_lstm_layers a)) (Some (num_linear_layers a - 1)%Z)
                (Some (dropout a))) as (Hn & front & l & Hlin & Hin' & Hout).
    split; [exact Hn|]. split; [by exists front, l|].
    intros x. pose proof (forward_width fw _ _ _ x Hlin) as Hwidth.
    by rewrite Hout in Hwidth.
  - split; [done|]. intros ??????. apply train_step_loss.
Qed.

(** The 24 models of the toy run are binary. *)
Lemma classifier_is_binary_witness :
  ∃ g,
    main toy_framework toy_script_args toy_full_dataset toy_world = Ok g
    ∧ ∀ a m, (a, m) ∈ train_calls (w_log (gs_world g)) → n_classes m = 2%Z.
Proof.
  eexists. split; [vm_compute; reflexivity|].
  edestruct (classifier_is_binary toy_framework toy_script_args toy_full_dataset
               toy_world) as (_ & (evs & Hlog & _ & Hmodels) & _);
    [vm_compute; reflexivity|].
  rewrite Hlog. intros a m Hin. destruct (Hmodels a m Hin) as [Hn _]. exact Hn.
Defined.

(** ** The baseline accuracy *)




(** ** Labels of the retained examples *)





(** ** The baseline accuracy of the script *)





(** ** The forward pass *)

Lemma mean_rows_spec (s : T2) (L H : nat) :
  shape2 s L H → 1 ≤ L →
  length (Tensor.mean_rows s) = H
  ∧ ∀ j, j < H →
      Tensor.mean_rows s !! j =
        Some (Tensor.Qsum ((λ r, r !!! j) <$> s) / inject_Z (Z.of_nat L))%Q.
Proof.
  intros [Hlen Hrows] HL. destruct s as [|r0 s']; [simpl in Hlen; lia|].
  assert (Hr0 : length r0 = H) by by apply Forall_cons in Hrows as [? _].
  unfold Tensor.mean_rows. rewrite Hlen, Hr0. split.
  - by rewrite length_fmap, length_seq.
  - intros j Hj. rewrite list_lookup_fmap, lookup_seq_lt by done. done.
Qed.

(** C10. [forward] applies the linear head to the mean over the time steps
    of the LSTM's output sequence: for an input on which the LSTM returns
    an output sequence of shape (B, L, hidden_size) with L >= 1, the pooled
    tensor has shape (B, hidden_size), its entries are the averages over the
    L steps, and the logits have shape (B, out_features) for the last
    linear layer (n_classes for a model the constructor built).  Neither
    the final states (h_n, c_n) nor the number of LSTM layers enter: the
    head is the same whatever the number of layers, and with two or more
    layers the pooled tensor is not of shape (B, hidden_size * num_layers)
    as the docstring has it. *)
Theorem forward_is_mean_pooling (fw : Framework) (m : LSTMClassifier) (seq : T3)
    (out h_n c_n : T3) (B L : nat) front l :
  let H := Z.to_nat (Nn.hidden_size (lstm m)) in
  lstm_forward fw (lstm m) (training m) seq = (out, (h_n, c_n)) →
  shape3 out B L H →
  1 ≤ L →
  linear m = front ++ [Nn.LinearLayer l] →
  forward fw m seq = sequential (linear m) (Tensor.mean1 out)
  ∧ shape2 (Tensor.mean1 out) B H
  ∧ (∀ b steps j, out !! b = Some steps → j < H →
       ∃ v, Tensor.mean1 out !! b = Some v
            ∧ v !! j = Some (Tensor.Qsum ((λ r, r !!! j) <$> steps)
                             / inject_Z (Z.of_nat L))%Q)
  ∧ shape2 (forward fw m seq) B (Z.to_nat (Nn.out_features l))
  ∧ (1 ≤ B → 1 ≤ H → (2 ≤ Nn.num_layers (lstm m))%Z →
     ¬ shape2 (Tensor.mean1 out) B (H * Z.to_nat (Nn.num_layers (lstm m))))
  ∧ (∀ input_size seq_size h_size classes layers1 layers2 hidden drop,
       linear (LSTMClassifier_init fw input_size seq_size h_size classes
                 layers1 hidden drop)
       = linear (LSTMClassifier_init fw input_size seq_size h_size classes
                   layers2 hidden drop)
       ∧ ∃ front' l',
           linear (LSTMClassifier_init fw input_size seq_size h_size classes
                     layers1 hidden drop) = front' ++ [Nn.LinearLayer l']
           ∧ Nn.out_features l' = default 2%Z classes).
Proof.
  intros H Hlstm [HB Hout] HL Hlin.
  assert (Hfwd : forward fw m seq = sequential (linear m) (Tensor.mean1 out)).
  { unfold forward. by rewrite Hlstm. }
  assert (Hpool : shape2 (Tensor.mean1 out) B H).
  { unfold Tensor.mean1. split; [by rewrite length_fmap|].
    apply Forall_fmap. eapply Forall_impl; [exact Hout|]. intros s Hs. simpl.
    by destruct (mean_rows_spec s L H Hs HL). }
  split; [exact Hfwd|]. split; [exact Hpool|]. split.
  { intros b steps j Hb Hj. exists (Tensor.mean_rows steps). split.
    - unfold Tensor.mean1. by rewrite list_lookup_fmap, Hb.
    - rewrite Forall_forall in Hout.
      assert (Hs : shape2 steps L H).
      { apply Hout. by eapply list_elem_of_lookup_2. }
      destruct (mean_rows_spec steps L H Hs HL) as [_ Hval]. by apply Hval. }
  split.
  { split.
    - rewrite Hfwd, Hlin, sequential_snoc. simpl. rewrite length_fmap.
      clear -Hpool. destruct Hpool as [Hlen _]. revert Hlen.
      generalize (Tensor.mean1 out). generalize B. clear.
      induction front as [|ly front IH] using rev_ind; intros B x Hx; [done|].
      rewrite sequential_snoc. destruct ly; simpl; rewrite length_fmap; by apply IH.
    - by eapply forward_width. }
  split.
  { intros HB1 HH1 Hlayers [_ Hrows].
    destruct (Tensor.mean1 out) as [|row rows] eqn:Hm.
    - destruct Hpool as [Hlen _]. simpl in Hlen. lia.
    - destruct Hpool as [_ Hrows']. apply Forall_cons in Hrows as [Hr _].
      apply Forall_cons in Hrows' as [Hr' _]. nia. }
  intros input_size seq_size h_size classes layers1 layers2 hidden drop.
  split; [done|]. eexists _, _. split; [done|]. apply nn_Linear_features.
Qed.

(** Two sequences of two steps through the toy LSTM with three hidden
    units. *)
Lemma forward_is_mean_pooling_witness :
  forward toy_framework toy_model [[[1; 2]; [3; 4]]; [[1; 0]; [0; 1]]]%Q
  = [[480 # 64; 544 # 64]; [96 # 64; 160 # 64]]%Q
  ∧ shape2 (forward toy_framework toy_model [[[1; 2]; [3; 4]]; [[1; 0]; [0; 1]]]%Q)
      2 2.
Proof.
  split; [vm_compute; reflexivity|].
  edestruct (forward_is_mean_pooling toy_framework toy_model
               [[[1; 2]; [3; 4]]; [[1; 0]; [0; 1]]]%Q)
    with (B := 2) (L := 2) (front := @nil Nn.layer)
         (l := nn_Linear toy_framework 0 3 2)
    as (_ & _ & _ & Hshape & _).
  - vm_compute. reflexivity.
  - split; [reflexivity|]. repeat constructor.
  - lia.
  - reflexivity.
  - exact Hshape.
Defined.


(** * Further properties of the code *)

(** ** dataset_iterator outside its intended range *)

Lemma dataset_iterator_loop_diverges {A} (dataset : list A) (batch_size : Z) :
  (batch_size ≤ 0)%Z → dataset ≠ [] →
  ∀ fuel c, (c ≤ 0)%Z → dataset_iterator_loop fuel dataset batch_size c = None.
Proof.
  intros Hbs Hne. induction fuel as [|fuel IH]; intros c Hc; [done|].
  simpl. destruct (Z.ltb_spec c (Z.of_nat (length dataset))) as [_|Hge].
  - by rewrite IH by lia.
  - destruct dataset; [done|]. simpl in Hge. lia.
Qed.

(** X1. With a batch size of zero or less the generator of
    [dataset_iterator] finishes only on an empty dataset, where it yields
    nothing; on a non-empty dataset its loop never ends, whatever the
    fuel. *)
Theorem dataset_iterator_nonpositive_batch {A} (random_shuffle : list A → list A)
    (dataset : list A) (batch_size : Z) (shuffle : bool) :
  (∀ l, random_shuffle l ≡ₚ l) →
  (batch_size ≤ 0)%Z →
  (dataset = [] →
     ∀ fuel, dataset_iterator random_shuffle (S fuel) dataset batch_size shuffle
             = Some [])
  ∧ (dataset ≠ [] →
     ∀ fuel, dataset_iterator random_shuffle fuel dataset batch_size shuffle
             = None).
Proof.
  intros Hperm Hbs. unfold dataset_iterator. split.
  - intros -> fuel.
    assert (Hnil : (if shuffle then random_shuffle [] else []) = @nil A).
    { destruct shuffle; [|done]. apply Permutation_nil_r. by rewrite Hperm. }
    by rewrite Hnil.
  - intros Hne fuel. apply dataset_iterator_loop_diverges; [done| |done].
    destruct shuffle; [|done]. intros Hnil. apply Hne.
    apply Permutation_nil_r. by rewrite <-(Hperm dataset), Hnil.
Qed.

(** Batch size 0 on three items, and on none. *)
Lemma dataset_iterator_nonpositive_batch_witness :
  (∀ l : list nat, reverse l ≡ₚ l) ∧ (0 ≤ 0)%Z
  ∧ dataset_iterator (@reverse nat) 1000 [1; 2; 3] 0 true = None
  ∧ dataset_iterator (@reverse nat) 1 [] 0 true = Some [].
Proof.
  assert (Hrev : ∀ l : list nat, reverse l ≡ₚ l)
    by (intros l; apply reverse_Permutation).
  split; [exact Hrev|]. split; [lia|].
  destruct (dataset_iterator_nonpositive_batch (@reverse nat) [1; 2; 3] 0 true Hrev)
    as [_ Hdiv]; [lia|].
  destruct (dataset_iterator_nonpositive_batch (@reverse nat) [] 0 true Hrev)
    as [Hnil _]; [lia|].
  split; [by apply Hdiv|by apply Hnil].
Defined.

(** ** SeqDataset *)


(** ** seq_data_to_dataset on nothing *)


(** ** Runs of train at the edges *)

Lemma accuracy_log_count (evs : list event) :
  length (accuracy_log evs)
  = length (filter (λ e, is_evaluation e = true) (step_events evs)).
Proof.
  unfold accuracy_log, step_events.
  induction evs as [|e evs IH]; [done|].
  destruct e as [| | | | |tag v g|]; simpl; try exact IH.
  destruct (decide (tag = "Accuracy")) as [->|Hacc].
  - rewrite decide_False by done. rewrite filter_cons_True by done.
    simpl. f_equal. exact IH.
  - destruct (decide (tag = "loss")); [|exact IH].
    rewrite filter_cons_False by done. exact IH.
Qed.

Lemma expected_evaluations (n : Z) :
  (0 ≤ n)%Z →
  length (filter (λ e, is_evaluation e = true) (expected_step_events n))
  = Z.to_nat (n / 5).
Proof.
  intros Hn. rewrite <-(Z2Nat.id n Hn). generalize (Z.to_nat n). clear.
  induction n as [|n IH]; [done|].
  rewrite Nat2Z.inj_succ, <-Z.add_1_r.
  rewrite expected_step_events_succ by lia.
  rewrite filter_app, length_app, IH. rewrite filter_cons_False by done.
  destruct (Z.eqb_spec ((Z.of_nat n + 1) `mod` 5) 0) as [Hmod|Hmod].
  - rewrite filter_cons_True by done. simpl length.
    Z.div_mod_to_equations. lia.
  - simpl length. Z.div_mod_to_equations. lia.
Qed.

Section TrainEdges.
Context (fw : Framework).

(** A call of [train] that returns, taken apart. *)
Lemma train_run args model optim train_loader test_loader baseline w r w' :
  train fw args model optim train_loader test_loader baseline w = Ok (r, w') →
  ∃ w1 st evs,
    train_setup args (emit (EvTrain args model) w) = Ok w1
    ∧ train_loop fw args train_loader test_loader (train_init model optim w1)
      = Ok st
    ∧ r = max_running_mean st
    ∧ w' = ts_world st
    ∧ w_log w' = w_log w ++ evs
    ∧ train_invariant evs st
    ∧ global_step st = total_batches fw args train_loader.
Proof.
  unfold train. intros Hrun. bind_inv Hrun. bind_inv Hrun.
  rename x into w1, x0 into st. injection Hrun as <- <-.
  pose proof (train_loop_count fw _ _ _ _ _ Hx0) as Hcount. simpl in Hcount.
  destruct (train_setup_log _ _ _ Hx) as (evs_setup & Hlog1 & Hfs).
  destruct (fs_events_silent _ Hfs) as (Hacc0 & Hsteps0 & _ & Hnoeval).
  pose proof (train_loop_rtc fw _ _ _ _ _ Hx0) as Hrtc.
  destruct (loop_rtc_invariant fw _ _ _ _ Hrtc (EvTrain args model :: evs_setup))
    as (evs_loop & Hlog2 & _ & _ & _ & Hinv).
  { apply train_init_invariant; [done|done|]. by intros [?|?]%elem_of_cons. }
  exists w1, st, ((EvTrain args model :: evs_setup) ++ evs_loop).
  split; [done|]. split; [done|]. split; [done|]. split; [done|].
  split. { rewrite Hlog2. simpl. rewrite Hlog1. simpl. by rewrite <-!(assoc_L (++)). }
  split; [exact Hinv|]. by rewrite Hcount.
Qed.

Lemma train_evaluations args model optim train_loader test_loader baseline w
    r w' :
  train fw args model optim train_loader test_loader baseline w = Ok (r, w') →
  ∃ evs,
    w_log w' = w_log w ++ evs
    ∧ length (accuracy_log evs)
      = Z.to_nat (total_batches fw args train_loader / 5)
    ∧ ((total_batches fw args train_loader < 5)%Z → r = Fin 0).
Proof.
  intros (w1 & st & evs & _ & _ & -> & _ & Hlog & Hinv & Hcount)%train_run.
  destruct Hinv as (_ & _ & _ & _ & Hatt & Hg & Hsteps & _).
  assert (Hlen : length (accuracy_log evs)
                 = Z.to_nat (total_batches fw args train_loader / 5)).
  { rewrite accuracy_log_count, Hsteps, expected_evaluations by done.
    by rewrite Hcount. }
  exists evs. split; [exact Hlog|]. split; [exact Hlen|].
  intros Hfew. destruct Hatt as [[_ Hzero]|(k & Hk & _)]; [exact Hzero|].
  rewrite Hlen in Hk.
  assert (total_batches fw args train_loader / 5 = 0)%Z; [|lia].
  apply Z.div_small. rewrite <-Hcount in *. lia.
Qed.

(** X6. A call of [train] that returns has evaluated floor(n / 5) times,
    for n the number of batches its epochs went through; with fewer than
    five batches in total it has not evaluated at all and returns the
    initial 0. *)
Theorem train_evaluation_count args model optim train_loader test_loader
    baseline w r w' :
  train fw args model optim train_loader test_loader baseline w = Ok (r, w') →
  ∃ evs,
    w_log w' = w_log w ++ evs
    ∧ length (accuracy_log evs)
      = Z.to_nat (total_batches fw args train_loader / 5)
    ∧ ((total_batches fw args train_loader < 5)%Z → r = Fin 0).
Proof. apply train_evaluations. Qed.

(** Without a test loader a training step cannot evaluate. *)
Lemma loop_step_no_loader train_loader st st' :
  loop_step fw train_loader None st st' →
  global_step st' = global_step st
  ∨ (global_step st' = (global_step st + 1)%Z
     ∧ ((global_step st + 1) `mod` 5 ≠ 0)%Z).
Proof.
  intros [st0|st0 ix_idxs st0' Hstep]; [by left|right].
  apply train_step_Ok in Hstep as (loss & st1 & Hg & _ & _ & _ & _ & Hrest).
  destruct (Z.eqb_spec ((global_step st0 + 1) `mod` 5) 0) as [Hmod|Hmod].
  - unfold evaluate in Hrest. simpl in Hrest. discriminate.
  - by subst.
Qed.

Lemma loop_rtc_no_loader train_loader st st' :
  rtc (loop_step fw train_loader None) st st' →
  (0 ≤ global_step st < 5)%Z → (0 ≤ global_step st' < 5)%Z.
Proof.
  induction 1 as [s|s s1 s2 Hstep _ IH]; [done|]. intros Hinv. apply IH.
  apply loop_step_no_loader in Hstep as [->|[-> Hmod]]; [done|].
  destruct (decide (global_step s = 4%Z)) as [H4|H4]; [|lia].
  rewrite H4 in Hmod. done.
Qed.

(** X4. Called without a test loader (the default [None]), [train] returns
    only if its epochs go through fewer than five batches in total, and
    then returns 0: the fifth training step would evaluate, and iterating
    [None] raises [TypeError]. *)
Theorem train_without_test_loader args model optim train_loader baseline w r w' :
  train fw args model optim train_loader None baseline w = Ok (r, w') →
  (total_batches fw args train_loader < 5)%Z ∧ r = Fin 0.
Proof.
  intros Hrun.
  assert (Hfew : (total_batches fw args train_loader < 5)%Z).
  { apply train_run in Hrun as (w1 & st & evs & _ & Hloop & _ & _ & _ & _ & <-).
    apply train_loop_rtc, loop_rtc_no_loader in Hloop; [lia|simpl; lia]. }
  split; [exact Hfew|].
  apply train_evaluations in Hrun as (evs & _ & _ & Hzero). by apply Hzero.
Qed.

(** X5. With [num_epochs <= 0] a call of [train] prepares the directories
    and returns 0 without a training step.  With at least one epoch it
    returns only if [len(train_loader)] is not 0, that is, for a loader
    with a positive batch size, only on a non-empty dataset: the epoch's
    loss print divides by that length. *)
Theorem train_degenerate_runs args model optim train_loader test_loader
    baseline w :
  ((num_epochs args ≤ 0)%Z →
   train fw args model optim train_loader test_loader baseline w
   = w1 ← train_setup args (emit (EvTrain args model) w); Ok (Fin 0, w1))
  ∧ ((1 ≤ num_epochs args)%Z →
     ∀ r w',
       train fw args model optim train_loader test_loader baseline w
         = Ok (r, w') →
       DataLoader_len train_loader ≠ 0%Z
       ∧ ((1 ≤ dl_batch_size train_loader)%Z → Y (dl_dataset train_loader) ≠ [])).
Proof.
  split.
  - intros Hne. unfold train, train_loop, range.
    rewrite seqZ_nil by lia. simpl.
    by destruct (train_setup args (emit (EvTrain args model) w)).
  - intros Hne r w' Hrun. unfold train in Hrun.
    apply bind_Ok in Hrun as (w1 & _ & Hrun).
    apply bind_Ok in Hrun as (st & Hloop & _).
    unfold train_loop, range in Hloop. rewrite seqZ_cons in Hloop by lia.
    simpl in Hloop. apply bind_Ok in Hloop as (st1 & Hepoch & _).
    unfold train_epoch in Hepoch.
    apply bind_Ok in Hepoch as (st2 & _ & Hepoch).
    apply bind_Ok in Hepoch as (q & Hdiv & _).
    unfold Float.truediv in Hdiv.
    destruct (Z.eqb_spec (DataLoader_len train_loader) 0) as [|Hlen]; [done|].
    split; [exact Hlen|]. intros Hbs HY. apply Hlen.
    unfold DataLoader_len, SeqDataset_len, ceil_div. rewrite HY. simpl.
    apply Z.div_small. lia.
Qed.

End TrainEdges.

(** Six batches: one evaluation. *)
Lemma train_evaluation_count_witness :
  ∃ r w',
    train toy_framework toy_args toy_model (Adam_init toy_model (Fin (1 # 100)))
      toy_loader (Some toy_loader) (Fin (1 # 2)) toy_world = Ok (r, w')
    ∧ total_batches toy_framework toy_args toy_loader = 6%Z
    ∧ length (accuracy_log (w_log w')) = 1.
Proof.
  eexists _, _. split; [vm_compute; reflexivity|]. split; [reflexivity|].
  edestruct (train_evaluation_count toy_framework toy_args toy_model
               (Adam_init toy_model (Fin (1 # 100))) toy_loader (Some toy_loader)
               (Fin (1 # 2)) toy_world) as (evs & Hlog & Hlen & _);
    [vm_compute; reflexivity|].
  rewrite Hlog. exact Hlen.
Defined.

(** Four batches without a test loader: the call returns 0. *)
Lemma train_without_test_loader_witness :
  ∃ r w',
    train toy_framework (set_batch_size 2 toy_args) toy_model
      (Adam_init toy_model (Fin (1 # 100)))
      {| dl_dataset := toy_dataset; dl_batch_size := 2; dl_shuffle := false;
         dl_num_workers := 0 |}
      None (Fin (1 # 2)) toy_world = Ok (r, w')
    ∧ r = Fin 0.
Proof.
  eexists _, _. split; [vm_compute; reflexivity|].
  edestruct (train_without_test_loader toy_framework (set_batch_size 2 toy_args)
               toy_model (Adam_init toy_model (Fin (1 # 100)))
               {| dl_dataset := toy_dataset; dl_batch_size := 2;
                  dl_shuffle := false; dl_num_workers := 0 |}
               (Fin (1 # 2)) toy_world) as [_ Hzero];
    [vm_compute; reflexivity|exact Hzero].
Defined.

(** Two epochs on three examples: the loader is not empty. *)
Lemma train_degenerate_runs_witness :
  (1 ≤ num_epochs toy_args)%Z
  ∧ ∃ r w',
      train toy_framework toy_args toy_model (Adam_init toy_model (Fin (1 # 100)))
        toy_loader (Some toy_loader) (Fin (1 # 2)) toy_world = Ok (r, w')
      ∧ DataLoader_len toy_loader ≠ 0%Z.
Proof.
  split; [done|]. eexists _, _. split; [vm_compute; reflexivity|].
  destruct (train_degenerate_runs toy_framework toy_args toy_model
              (Adam_init toy_model (Fin (1 # 100))) toy_loader (Some toy_loader)
              (Fin (1 # 2)) toy_world) as [_ Hlen].
  edestruct Hlen as [Hne _]; [done|vm_compute; reflexivity|exact Hne].
Defined.

(** ** Directories across calls *)

Lemma makedirs_log_app evs1 evs2 :
  makedirs_log (evs1 ++ evs2) = makedirs_log evs1 ++ makedirs_log evs2.
Proof. apply omap_app. Qed.

Lemma writer_log_app evs1 evs2 :
  writer_log (evs1 ++ evs2) = writer_log evs1 ++ writer_log evs2.
Proof. apply omap_app. Qed.

Lemma loop_events_no_fs_calls evs :
  Forall (λ e, loop_event e = true) evs →
  makedirs_log evs = [] ∧ writer_log evs = [].
Proof.
  induction 1 as [|e evs He _ [IH1 IH2]]; [done|].
  by destruct e.
Qed.

Lemma makedirs_rev_existing (c c' : string) (t : path) (m : gmap path node) :
  Os.exists_ (reverse (c' :: t)) m = true →
  Os.isdir (reverse (c :: c' :: t)) m = true →
  Os.makedirs_rev (c :: c' :: t) true m = Ok m.
Proof.
  intros Hex Hleaf. rewrite makedirs_rev_cons, Hex. cbn [mbind Res_bind].
  assert (Hex' : Os.exists_ (reverse (c :: c' :: t)) m = true).
  { rewrite exists_nonempty by apply reverse_cons_nonempty.
    apply bool_decide_eq_true.
    apply isdir_true_Some in Hleaf; [|apply reverse_cons_nonempty].
    by rewrite Hleaf. }
  unfold Os.mkdir_rev. by rewrite Hex', Hleaf.
Qed.

(** [makedirs(.., exist_ok=True)] on a directory that exists inside a
    directory that exists changes nothing. *)
Lemma makedirs_existing (p : path) (name : string) (m : gmap path node) :
  p ≠ [] →
  Os.isdir p m = true → Os.isdir (Os.join p name) m = true →
  Os.makedirs (Os.join p name) true m = Ok m.
Proof.
  intros Hne Hp Hleaf. unfold Os.makedirs, Os.join in *.
  rewrite reverse_snoc.
  destruct (reverse p) as [|c' t] eqn:Hrp.
  { destruct Hne. by rewrite <-(reverse_involutive p), Hrp. }
  apply makedirs_rev_existing.
  - rewrite <-Hrp, reverse_involutive.
    rewrite exists_nonempty by done. apply bool_decide_eq_true.
    apply isdir_true_Some in Hp; [|done]. by rewrite Hp.
  - by rewrite reverse_cons, <-Hrp, reverse_involutive.
Qed.

Lemma dirs_ready_exp_name (a b : Args) (m : gmap path node) :
  exp_name a = exp_name b → dirs_ready a m → dirs_ready b m.
Proof.
  unfold dirs_ready, log_dir, checkpoint_path, checkpoint_dir. by intros ->.
Qed.

(** What the preparation of the directories calls and leaves behind. *)
Lemma train_setup_calls args w w' :
  train_setup args w = Ok w' →
  ∃ evs,
    w_log w' = w_log w ++ evs
    ∧ makedirs_log evs `sublist_of` [log_dir args; checkpoint_dir args]
    ∧ writer_log evs = [Os.join (log_dir args) "train"]
    ∧ train_calls evs = []
    ∧ dirs_ready args (w_fs w')
    ∧ Os.isdir (Os.join (log_dir args) "train") (w_fs w') = true
    ∧ (dirs_ready args (w_fs w) →
       makedirs_log evs = []
       ∧ (Os.isdir (Os.join (log_dir args) "train") (w_fs w) = true →
          w_fs w' = w_fs w)).
Proof.
  unfold train_setup. intros Hrun.
  apply bind_Ok in Hrun as (w1 & H1 & Hrun).
  apply bind_Ok in Hrun as (w2 & H2 & H3).
  (* the log directory *)
  assert (∃ evs1,
    w_log w1 = w_log w ++ evs1
    ∧ (evs1 = [] ∧ w1 = w ∧ Os.isdir (log_dir args) (w_fs w) = true
       ∨ evs1 = [EvMakedirs (log_dir args)]
         ∧ Os.isdir (log_dir args) (w_fs w) = false)
    ∧ Os.isdir (log_dir args) (w_fs w1) = true
    ∧ new_dirs_along [log_dir args] (w_fs w) (w_fs w1))
    as (evs1 & Hlog1 & Hevs1 & Hdir1 & Hfr1).
  { destruct (Os.isdir (log_dir args) (w_fs w)) eqn:Hdir; cbn [negb] in H1.
    - injection H1 as <-. exists []. rewrite app_nil_r.
      split; [done|]. split; [by left|]. split; [done|apply new_dirs_along_refl].
    - apply os_makedirs_Ok in H1 as [Hmk ->].
      apply makedirs_Ok in Hmk as (_ & Hd & Hfr).
      eexists. split; [done|]. split; [by right|].
      split; [by apply isdir_true_Some|done]. }
  (* the writer's directory *)
  apply SummaryWriter_Ok in H2 as [Hmk2 Hlog2].
  pose proof Hmk2 as Hmk2'.
  apply makedirs_Ok in Hmk2 as (_ & Hdir2 & Hfr2).
  assert (Hkeep2 : ∀ q x, w_fs w !! q = Some x → w_fs w2 !! q = Some x).
  { intros q x Hq. eapply new_dirs_preserved; [exact Hfr2|].
    by eapply new_dirs_preserved. }
  (* the checkpoint directory *)
  assert (∃ evs3,
    w_log w' = w_log w2 ++ evs3
    ∧ (evs3 = [] ∧ w' = w2
       ∨ evs3 = [EvMakedirs (checkpoint_dir args)]
         ∧ Os.isfile (checkpoint_path args) (w_fs w2) = false
         ∧ Os.isdir (checkpoint_dir args) (w_fs w2) = false)
    ∧ (Os.isfile (checkpoint_path args) (w_fs w') = true
       ∨ Os.isdir (checkpoint_dir args) (w_fs w') = true)
    ∧ new_dirs_along [checkpoint_dir args] (w_fs w2) (w_fs w'))
    as (evs3 & Hlog3 & Hevs3 & Hready3 & Hfr3).
  { destruct (Os.isfile (checkpoint_path args) (w_fs w2)) eqn:Hfile;
      cbn [negb] in H3.
    { injection H3 as <-. exists []. rewrite app_nil_r.
      split; [done|]. split; [by left|]. split; [by left|apply new_dirs_along_refl]. }
    destruct (Os.isdir (checkpoint_dir args) (w_fs w2)) eqn:Hdir;
      cbn [negb] in H3.
    - injection H3 as <-. exists []. rewrite app_nil_r.
      split; [done|]. split; [by left|]. split; [by right|apply new_dirs_along_refl].
    - apply os_makedirs_Ok in H3 as [Hmk ->].
      apply makedirs_Ok in Hmk as (_ & Hd & Hfr).
      eexists. split; [done|]. split; [by right|].
      split; [right; by apply isdir_true_Some|done]. }
  exists (evs1 ++ EvSummaryWriter (Os.join (log_dir args) "train") :: evs3).
  split. { rewrite Hlog3, Hlog2, Hlog1. by rewrite <-!(assoc_L (++)). }
  split.
  { rewrite makedirs_log_app.
    destruct Hevs1 as [(-> & _)|(-> & _)], Hevs3 as [(-> & _)|(-> & _)]; simpl;
      repeat first [apply sublist_nil | apply sublist_skip | apply sublist_cons]. }
  split.
  { rewrite writer_log_app.
    by destruct Hevs1 as [(-> & _)|(-> & _)], Hevs3 as [(-> & _)|(-> & _)]. }
  split.
  { rewrite train_calls_app.
    by destruct Hevs1 as [(-> & _)|(-> & _)], Hevs3 as [(-> & _)|(-> & _)]. }
  split.
  { split; [|exact Hready3].
    apply isdir_true_Some; [done|]. eapply new_dirs_preserved; [exact Hfr3|].
    eapply new_dirs_preserved; [exact Hfr2|]. by apply isdir_true_Some in Hdir1. }
  split.
  { apply isdir_true_Some; [done|]. by eapply new_dirs_preserved. }
  intros [HL Hckp].
  destruct Hevs1 as [(-> & -> & _)|(_ & HL')]; [|congruence].
  assert (Hquiet : evs3 = [] ∧ w' = w2).
  { destruct Hevs3 as [?|(_ & Hfile & Hdir)]; [done|].
    destruct Hckp as [Hckp|Hckp].
    - unfold Os.isfile in *. apply bool_decide_eq_true in Hckp.
      apply Hkeep2 in Hckp. apply bool_decide_eq_false in Hfile. done.
    - apply isdir_true_Some in Hckp; [|done]. apply Hkeep2 in Hckp.
      apply isdir_true_Some in Hckp; [|done]. congruence. }
  destruct Hquiet as [-> ->]. split; [done|].
  intros HLT. rewrite makedirs_existing in Hmk2'; [|done..].
  by injection Hmk2'.
Qed.

Section DirectoriesAcrossCalls.
Context (fw : Framework).

(** The file-system calls of a whole call of [train], read against the
    directories of [a0], an argument set with the same experiment name. *)
Lemma train_fs_calls (a0 : Args) args model optim train_loader test_loader
    baseline w r w' :
  exp_name args = exp_name a0 →
  train fw args model optim train_loader test_loader baseline w = Ok (r, w') →
  ∃ evs,
    w_log w' = w_log w ++ evs
    ∧ makedirs_log evs `sublist_of` [log_dir a0; checkpoint_dir a0]
    ∧ writer_log evs = [Os.join (log_dir a0) "train"]
    ∧ train_calls evs = [(args, model)]
    ∧ done_perfs evs = []
    ∧ dirs_ready a0 (w_fs w')
    ∧ Os.isdir (Os.join (log_dir a0) "train") (w_fs w') = true
    ∧ (dirs_ready a0 (w_fs w) →
       makedirs_log evs = []
       ∧ (Os.isdir (Os.join (log_dir a0) "train") (w_fs w) = true →
          w_fs w' = w_fs w)).
Proof.
  intros Hexp Hrun.
  assert (Hpaths : log_dir args = log_dir a0
                   ∧ checkpoint_dir args = checkpoint_dir a0).
  { unfold log_dir, checkpoint_dir. by rewrite Hexp. }
  destruct Hpaths as [HL HC].
  pose proof (train_log fw _ _ _ _ _ _ _ _ _ Hrun) as (_ & evs0 & Hlog0 & _ & Hp0).
  unfold train in Hrun.
  apply bind_Ok in Hrun as (w1 & Hsetup & Hrun).
  apply bind_Ok in Hrun as (st & Hloop & Hret). injection Hret as <- <-.
  apply train_setup_calls in Hsetup
    as (evs1 & Hlog1 & Hmk1 & Hwr1 & Hc1 & Hready1 & HLT1 & Hquiet1).
  apply train_loop_rtc, (loop_rtc_fs fw) in Hloop as (evs2 & Hlog2 & Hfs2 & Hev2).
  pose proof (loop_events_silent _ Hev2) as (Hc2 & _ & _).
  apply loop_events_no_fs_calls in Hev2 as [Hmk2 Hwr2].
  simpl in Hlog1, Hlog2, Hfs2, Hready1, HLT1, Hquiet1.
  rewrite HL, HC in Hmk1. rewrite HL in Hwr1, HLT1, Hquiet1.
  assert (Hlog : w_log (ts_world st)
                 = w_log w ++ EvTrain args model :: evs1 ++ evs2).
  { rewrite Hlog2, Hlog1. by rewrite <-!(assoc_L (++)). }
  exists (EvTrain args model :: evs1 ++ evs2). rewrite Hfs2.
  split; [exact Hlog|].
  change (makedirs_log (EvTrain args model :: evs1 ++ evs2))
    with (makedirs_log (evs1 ++ evs2)).
  change (writer_log (EvTrain args model :: evs1 ++ evs2))
    with (writer_log (evs1 ++ evs2)).
  change (train_calls (EvTrain args model :: evs1 ++ evs2))
    with ((args, model) :: train_calls (evs1 ++ evs2)).
  rewrite makedirs_log_app, writer_log_app, train_calls_app,
    Hmk2, Hwr2, Hc1, Hc2, !app_nil_r.
  split; [exact Hmk1|]. split; [exact Hwr1|]. split; [done|].
  split.
  { rewrite Hlog0 in Hlog. apply app_inv_head in Hlog. injection Hlog as <-.
    exact Hp0. }
  split; [by eapply dirs_ready_exp_name|]. split; [exact HLT1|].
  intros Hready. apply Hquiet1. by eapply dirs_ready_exp_name.
Qed.


(** One pass through the body of the grid loop, as seen from the file
    system. *)
Lemma grid_body_fs_calls (a0 : Args) train_dataset val_dataset baseline lr'
    batch_size' st hidden_size' st' :
  exp_name (gs_args st) = exp_name a0 →
  grid_body fw train_dataset val_dataset baseline lr' batch_size' st hidden_size'
    = Ok st' →
  gs_args st' = at_point (lr', batch_size', hidden_size') (gs_args st)
  ∧ ∃ evs,
      w_log (gs_world st') = w_log (gs_world st) ++ evs
      ∧ makedirs_log evs `sublist_of` [log_dir a0; checkpoint_dir a0]
      ∧ writer_log evs = [Os.join (log_dir a0) "train"]
      ∧ Forall (λ c : Args * LSTMClassifier, exp_name c.1 = exp_name a0)
          (train_calls evs)
      ∧ dirs_ready a0 (w_fs (gs_world st'))
      ∧ (dirs_ready a0 (w_fs (gs_world st)) → makedirs_log evs = []).
Proof.
  intros Hexp Hrun. unfold grid_body in Hrun.
  apply bind_Ok in Hrun as (tl & _ & Hrun).
  apply bind_Ok in Hrun as (vl & _ & Hrun).
  apply bind_Ok in Hrun as ([perf w1] & Htrain & Hrun).
  apply (train_fs_calls a0) in Htrain
    as (evs & Hlog & Hmk & Hwr & Hcalls & _ & Hready & _ & Hquiet); [|done].
  assert (Hst' : gs_args st'
                 = at_point (lr', batch_size', hidden_size') (gs_args st)
                 ∧ gs_world st'
                   = emit (EvPrintDone (steps st + 1) (total_steps st) perf) w1).
  { destruct (Float.gt perf (max_perf st)); by injection Hrun as <-. }
  destruct Hst' as [Hargs Hworld]. split; [exact Hargs|].
  exists (evs ++ [EvPrintDone (steps st + 1) (total_steps st) perf]).
  rewrite Hworld. simpl.
  rewrite makedirs_log_app, writer_log_app, train_calls_app, Hcalls, !app_nil_r.
  split; [by rewrite Hlog, <-(assoc_L (++))|].
  split; [exact Hmk|]. split; [exact Hwr|].
  split; [by repeat constructor|]. split; [exact Hready|].
  intros Hr. by destruct (Hquiet Hr).
Qed.

Lemma grid_loop_fs_calls (a0 : Args) train_dataset val_dataset baseline
    (pts : list point) :
  ∀ st st',
    exp_name (gs_args st) = exp_name a0 →
    for_loop
      (λ st (pt : point),
         grid_body fw train_dataset val_dataset baseline pt.1.1 pt.1.2 st pt.2)
      pts st = Ok st' →
    gs_args st' = default (gs_args st) ((λ pt, at_point pt (gs_args st)) <$> last pts)
    ∧ ∃ evs,
        w_log (gs_world st') = w_log (gs_world st) ++ evs
        ∧ makedirs_log evs `sublist_of` [log_dir a0; checkpoint_dir a0]
        ∧ writer_log evs = replicate (length pts) (Os.join (log_dir a0) "train")
        ∧ Forall (λ c : Args * LSTMClassifier, exp_name c.1 = exp_name a0)
            (train_calls evs)
        ∧ (dirs_ready a0 (w_fs (gs_world st)) → makedirs_log evs = [])
        ∧ (pts ≠ [] ∨ dirs_ready a0 (w_fs (gs_world st)) →
           dirs_ready a0 (w_fs (gs_world st'))).
Proof.
  induction pts as [|[[lr' bs'] hs'] pts IH]; intros st st' Hexp Hrun;
    simpl in Hrun.
  - injection Hrun as <-. split; [done|]. exists []. rewrite app_nil_r.
    split; [done|]. split; [apply sublist_nil_l|]. split; [done|].
    split; [constructor|]. split; [done|]. by intros [?|?].
  - apply bind_Ok in Hrun as (st1 & Hbody & Hrest).
    apply (grid_body_fs_calls a0) in Hbody
      as (Hargs1 & evs1 & Hlog1 & Hmk1 & Hwr1 & Hc1 & Hready1 & Hquiet1); [|done].
    assert (Hexp1 : exp_name (gs_args st1) = exp_name a0) by by rewrite Hargs1.
    destruct (IH _ _ Hexp1 Hrest)
      as (Hargs2 & evs2 & Hlog2 & _ & Hwr2 & Hc2 & Hquiet2 & Hready2).
    split.
    { rewrite Hargs2, Hargs1. destruct pts as [|pt pts']; [done|].
      change (last ((lr', bs', hs') :: pt :: pts')) with (last (pt :: pts')).
      destruct (last (pt :: pts')) as [q|] eqn:Hlast;
        [|by apply last_None in Hlast].
      simpl. by destruct (gs_args st). }
    exists (evs1 ++ evs2).
    rewrite makedirs_log_app, writer_log_app, train_calls_app,
      (Hquiet2 Hready1), app_nil_r, Hwr1, Hwr2.
    split; [by rewrite Hlog2, Hlog1, <-(assoc_L (++))|].
    split; [exact Hmk1|]. split; [done|]. split; [by apply Forall_app|].
    split; [exact Hquiet1|]. intros _. apply Hready2. by right.
Qed.

End DirectoriesAcrossCalls.


(** ** The script as a whole *)



Section ScriptEdges.
Context (fw : Framework).

(** A returning run of the script, taken apart. *)
Lemma main_run args full_dataset w g :
  main fw args full_dataset w = Ok g →
  (0 < batch_size args)%Z
  ∧ ∃ train_dataset val_dataset baseline,
      for_loop
        (λ st (pt : point),
           grid_body fw train_dataset val_dataset baseline pt.1.1 pt.1.2 st pt.2)
        grid_points
        {| gs_args := args; steps := 0; total_steps := 24; max_perf := Fin 0;
           best_args := []; gs_world := w |} = Ok g.
Proof.
  unfold main. intros Hrun.
  apply bind_Ok in Hrun as (v & _ & Hrun).
  apply bind_Ok in Hrun as (t & _ & Hrun).
  apply bind_Ok in Hrun as (train_dataset & _ & Hrun).
  apply bind_Ok in Hrun as (val_dataset & _ & Hrun).
  apply bind_Ok in Hrun as (tl & Htl & Hrun).
  apply bind_Ok in Hrun as (vl & _ & Hrun).
  split.
  { unfold DataLoader_init in Htl.
    destruct (batch_size args <=? 0)%Z eqn:Hb; [done|]. lia. }
  rewrite grid_search_flat in Hrun. by eexists _, _, _.
Qed.

(** X8. Over a whole returning run of the script, whose 24 calls of [train]
    all carry the experiment name given on the command line, [os.makedirs]
    is called at most once for the log directory and at most once for the
    checkpoint directory (and not at all when both were there before),
    while every one of the 24 calls opens a summary writer on the same
    directory [logs/<exp_name>/train]. *)
Theorem main_shares_directories args full_dataset w g :
  main fw args full_dataset w = Ok g →
  ∃ evs,
    w_log (gs_world g) = w_log w ++ evs
    ∧ Forall (λ c : Args * LSTMClassifier, exp_name c.1 = exp_name args)
        (train_calls evs)
    ∧ makedirs_log evs `sublist_of` [log_dir args; checkpoint_dir args]
    ∧ writer_log evs = replicate 24 (Os.join (log_dir args) "train")
    ∧ (dirs_ready args (w_fs w) → makedirs_log evs = [])
    ∧ dirs_ready args (w_fs (gs_world g)).
Proof.
  intros (_ & train_dataset & val_dataset & baseline & Hloop)%main_run.
  apply (grid_loop_fs_calls fw args) in Hloop
    as (_ & evs & Hlog & Hmk & Hwr & Hcalls & Hquiet & Hready); [|done].
  exists evs. simpl in Hlog, Hquiet, Hready.
  split; [exact Hlog|]. split; [exact Hcalls|]. split; [exact Hmk|].
  split; [by rewrite Hwr, grid_points_explicit|]. split; [exact Hquiet|].
  apply Hready. left. by rewrite grid_points_explicit.
Qed.

(** The body of the grid loop overwrites the three fields it assigns:
    what they held before does not matter. *)
Lemma grid_body_overwrites train_dataset val_dataset baseline lr' batch_size'
    hidden_size' (a : Args) st :
  at_point (lr', batch_size', hidden_size') a
    = at_point (lr', batch_size', hidden_size') (gs_args st) →
  grid_body fw train_dataset val_dataset baseline lr' batch_size'
    {| gs_args := a; steps := steps st; total_steps := total_steps st;
       max_perf := max_perf st; best_args := best_args st;
       gs_world := gs_world st |} hidden_size'
  = grid_body fw train_dataset val_dataset baseline lr' batch_size' st
      hidden_size'.
Proof.
  intros Heq. unfold grid_body. cbv zeta.
  cbn [gs_args steps total_steps max_perf best_args gs_world].
  change (set_hidden_size hidden_size'
            (set_lr lr' (set_batch_size batch_size' a)))
    with (at_point (lr', batch_size', hidden_size') a).
  change (set_hidden_size hidden_size'
            (set_lr lr' (set_batch_size batch_size' (gs_args st))))
    with (at_point (lr', batch_size', hidden_size') (gs_args st)).
  by rewrite Heq.
Qed.

Lemma grid_search_overwrites train_dataset val_dataset baseline (a : Args) st :
  (∀ pt, at_point pt a = at_point pt (gs_args st)) →
  grid_search fw train_dataset val_dataset baseline
    {| gs_args := a; steps := steps st; total_steps := total_steps st;
       max_perf := max_perf st; best_args := best_args st;
       gs_world := gs_world st |}
  = grid_search fw train_dataset val_dataset baseline st.
Proof.
  intros Heq. rewrite !grid_search_flat, grid_points_explicit.
  cbn [for_loop]. by rewrite grid_body_overwrites by apply Heq.
Qed.

(** X9. The script overwrites [--lr], [--hidden_size] and [--batch_size]:
    whatever learning rate and hidden size are given, the run is the same;
    the batch size matters only in that it must be positive for the script
    to return; and when the script returns, [args] holds the last point of
    the grid. *)
Theorem main_overwrites_arguments args full_dataset w :
  (∀ v h,
     main fw (set_lr v (set_hidden_size h args)) full_dataset w
     = main fw args full_dataset w)
  ∧ (∀ b, (0 < b)%Z → (0 < batch_size args)%Z →
       main fw (set_batch_size b args) full_dataset w
       = main fw args full_dataset w)
  ∧ (∀ g, main fw args full_dataset w = Ok g →
       (0 < batch_size args)%Z
       ∧ gs_args g
         = set_hidden_size 64 (set_lr (Fin (1 # 1000)) (set_batch_size 64 args))).
Proof.
  split; [|split].
  - intros v h. unfold main.
    cbn [cap_len debug test_on_train batch_size set_lr set_hidden_size].
    destruct (dict_get full_dataset "val") as [vd|]; [|done].
    cbn [mbind Res_bind].
    destruct (if truthy (debug args) then Ok vd else dict_get full_dataset "train")
      as [td|]; [|done].
    cbn [mbind Res_bind].
    destruct (seq_data_to_dataset fw td (cap_len args) 11 true) as [tds|]; [|done].
    cbn [mbind Res_bind].
    destruct (seq_data_to_dataset fw vd (cap_len args) 11 true) as [vds|]; [|done].
    cbn [mbind Res_bind].
    destruct (DataLoader_init tds (batch_size args) true 0) as [tl|]; [|done].
    cbn [mbind Res_bind].
    destruct (if negb (truthy (test_on_train args))
              then DataLoader_init vds (batch_size args) true 0 else Ok tl)
      as [vl|]; [|done].
    cbn [mbind Res_bind].
    apply (grid_search_overwrites tds vds _ _
             {| gs_args := args; steps := 0;
                total_steps := Z.of_nat (length lrs) * Z.of_nat (length batch_sizes)
                               * Z.of_nat (length hidden_sizes);
                max_perf := Fin 0; best_args := []; gs_world := w |}).
    intros pt. by destruct args.
  - intros b Hb Hargs. unfold main, DataLoader_init.
    cbn [cap_len debug test_on_train batch_size set_batch_size].
    destruct (dict_get full_dataset "val") as [vd|]; [|done].
    cbn [mbind Res_bind].
    destruct (if truthy (debug args) then Ok vd else dict_get full_dataset "train")
      as [td|]; [|done].
    cbn [mbind Res_bind].
    destruct (seq_data_to_dataset fw td (cap_len args) 11 true) as [tds|]; [|done].
    cbn [mbind Res_bind].
    destruct (seq_data_to_dataset fw vd (cap_len args) 11 true) as [vds|]; [|done].
    cbn [mbind Res_bind].
    destruct (b <=? 0)%Z eqn:Hb'; [lia|].
    destruct (batch_size args <=? 0)%Z eqn:Hargs'; [lia|].
    cbn [mbind Res_bind].
    destruct (negb (truthy (test_on_train args))); cbn [mbind Res_bind].
    all: apply (grid_search_overwrites tds vds _ _
             {| gs_args := args; steps := 0;
                total_steps := Z.of_nat (length lrs) * Z.of_nat (length batch_sizes)
                               * Z.of_nat (length hidden_sizes);
                max_perf := Fin 0; best_args := []; gs_world := w |}).
    all: intros pt; by destruct args.
  - intros g (Hb & train_dataset & val_dataset & baseline & Hloop)%main_run.
    split; [exact Hb|].
    apply (grid_loop_fs_calls fw args) in Hloop as (Hargs & _); [|done].
    rewrite Hargs, grid_points_explicit. reflexivity.
Qed.


End ScriptEdges.

Lemma main_shares_directories_witness :
  ∃ g,
    main toy_framework toy_script_args toy_full_dataset toy_world = Ok g
    ∧ makedirs_log (w_log (gs_world g))
      = [log_dir toy_script_args; checkpoint_dir toy_script_args]
    ∧ length (writer_log (w_log (gs_world g))) = 24.
Proof.
  eexists. split; [vm_compute; reflexivity|]. split; [vm_compute; reflexivity|].
  edestruct (main_shares_directories toy_framework toy_script_args
               toy_full_dataset toy_world) as (evs & Hlog & _ & _ & Hwr & _);
    [vm_compute; reflexivity|].
  rewrite Hlog. change (w_log toy_world ++ evs) with evs.
  rewrite Hwr. reflexivity.
Defined.

(** ** Testing on the training set *)

Lemma for_loop_ext_inv {S A} (P : S → Prop) (f f' : S → A → Res S) (l : list A) :
  (∀ st x, P st → f st x = f' st x) →
  (∀ st x st', P st → f st x = Ok st' → P st') →
  ∀ st, P st → for_loop f l st = for_loop f' l st.
Proof.
  intros Hext Hinv. induction l as [|x l IH]; intros st HP; [done|].
  simpl. rewrite <-(Hext st x HP).
  destruct (f st x) as [st'|e] eqn:Hf; [|done].
  cbn [mbind Res_bind]. apply IH. by eapply Hinv.
Qed.

Section TestOnTrain.
Context (fw : Framework).

Lemma grid_body_test_on_train train_dataset val_dataset val_dataset' baseline
    lr' batch_size' st hidden_size' :
  truthy (test_on_train (gs_args st)) = true →
  grid_body fw train_dataset val_dataset baseline lr' batch_size' st hidden_size'
  = grid_body fw train_dataset val_dataset' baseline lr' batch_size' st
      hidden_size'.
Proof.
  intros Htest. unfold grid_body. cbv zeta.
  cbn [test_on_train set_hidden_size set_lr set_batch_size].
  by rewrite Htest.
Qed.

Lemma grid_search_test_on_train train_dataset val_dataset val_dataset' baseline
    st :
  truthy (test_on_train (gs_args st)) = true →
  grid_search fw train_dataset val_dataset baseline st
  = grid_search fw train_dataset val_dataset' baseline st.
Proof.
  intros Htest. rewrite !grid_search_flat.
  apply (for_loop_ext_inv
           (λ st, truthy (test_on_train (gs_args st)) = true)); [| |done].
  - intros st1 pt H1. by apply grid_body_test_on_train.
  - intros st1 [[lr' bs'] hs'] st2 H1 Hbody. simpl in Hbody.
    apply (grid_body_fs_calls fw (gs_args st1)) in Hbody as [-> _]; [|done].
    exact H1.
Qed.

(** X11. With [--test_on_train] set (and outside debug mode) the
    validation split has to be there and to survive preprocessing, but what
    is in it has no influence on the run: replacing it by any other split
    that survives preprocessing gives the same result, the same log and
    the same errors. *)
Theorem main_test_on_train_ignores_val args full_dataset w val val' :
  truthy (test_on_train args) = true →
  truthy (debug args) = false →
  full_dataset !! "val" = Some val →
  (∃ ds, seq_data_to_dataset fw val (cap_len args) 11 true = Ok ds) →
  (∃ ds, seq_data_to_dataset fw val' (cap_len args) 11 true = Ok ds) →
  main fw args (<["val" := val']> full_dataset) w
  = main fw args full_dataset w.
Proof.
  intros Htest Hdebug Hval [ds Hds] [ds' Hds']. unfold main, dict_get.
  rewrite lookup_insert_eq, lookup_insert_ne by done.
  rewrite Hval, Hdebug, Htest. cbn [mbind Res_bind negb].
  destruct (full_dataset !! "train") as [td|]; [|done].
  cbn [mbind Res_bind].
  destruct (seq_data_to_dataset fw td (cap_len args) 11 true) as [tds|]; [|done].
  cbn [mbind Res_bind]. rewrite Hds, Hds'. cbn [mbind Res_bind].
  destruct (DataLoader_init tds (batch_size args) true 0) as [tl|]; [|done].
  cbn [mbind Res_bind]. by apply grid_search_test_on_train.
Qed.

End TestOnTrain.

Lemma main_test_on_train_ignores_val_witness :
  truthy (test_on_train toy_split_args) = true
  ∧ truthy (debug toy_split_args) = false
  ∧ main toy_framework toy_split_args
      (<["val" := toy_examples]> toy_split_dataset) toy_world
    = main toy_framework toy_split_args toy_split_dataset toy_world.
Proof.
  split; [reflexivity|]. split; [reflexivity|].
  apply (main_test_on_train_ignores_val toy_framework toy_split_args
           toy_split_dataset toy_world
           [([[2; 2]]%Q, [0%Z]); ([[0; 1]; [1; 1]]%Q, [1%Z])] toy_examples);
    [reflexivity|reflexivity|reflexivity
    |eexists; vm_compute; reflexivity|eexists; vm_compute; reflexivity].
Defined.

(** ** The layers of the classifier head *)

Lemma pairs_lookup {A} (f g : nat → A) (n : nat) :
  length (concat ((λ k, [f k; g k]) <$> seq 0 n)) = 2 * n
  ∧ ∀ i, i < n →
      concat ((λ k, [f k; g k]) <$> seq 0 n) !! (2 * i) = Some (f i)
      ∧ concat ((λ k, [f k; g k]) <$> seq 0 n) !! (2 * i + 1) = Some (g i).
Proof.
  induction n as [|n [IHlen IH]]; [split; [done|lia]|].
  rewrite seq_S, fmap_app, concat_app. simpl. split.
  { rewrite length_app, IHlen. simpl. lia. }
  intros i Hi. destruct (decide (i < n)) as [Hlt|Hge].
  - destruct (IH i Hlt) as [H1 H2].
    rewrite !lookup_app_l by lia. done.
  - assert (i = n) as -> by lia.
    rewrite !lookup_app_r by lia. rewrite IHlen.
    split.
    + match goal with |- _ !! ?j = _ => replace j with 0 by lia end. done.
    + match goal with |- _ !! ?j = _ => replace j with 1 by lia end. done.
Qed.

(** X12. The head built by [LSTMClassifier.__init__] for a hidden-layer
    count [k]: [2k + 1] layers, a linear layer from [h_size] to [h_size]
    at every even position below [2k], a ReLU at every odd one, and the
    linear layer from [h_size] to [n_classes] last.  A count of zero or
    below gives that last layer alone. *)
Theorem LSTMClassifier_head (fw : Framework) input_size seq_size h_size
    n_classes n_lstm_layers n_linear_layers_hidden dropout :
  let m := LSTMClassifier_init fw input_size seq_size h_size n_classes
             n_lstm_layers n_linear_layers_hidden dropout in
  let k := Z.to_nat (default 0%Z n_linear_layers_hidden) in
  length (linear m) = 2 * k + 1
  ∧ (∀ i, i < k →
       (∃ l, linear m !! (2 * i) = Some (Nn.LinearLayer l)
             ∧ Nn.in_features l = h_size ∧ Nn.out_features l = h_size)
       ∧ linear m !! (2 * i + 1) = Some Nn.ReLU)
  ∧ (∃ l, linear m !! (2 * k) = Some (Nn.LinearLayer l)
          ∧ last (linear m) = Some (Nn.LinearLayer l)
          ∧ Nn.in_features l = h_size
          ∧ Nn.out_features l = default 2%Z n_classes)
  ∧ ((default 0 n_linear_layers_hidden ≤ 0)%Z →
     linear m
     = [Nn.LinearLayer (nn_Linear fw 0 h_size (default 2%Z n_classes))]).
Proof.
  cbv zeta. unfold LSTMClassifier_init. cbn [linear].
  set (k := Z.to_nat (default 0%Z n_linear_layers_hidden)).
  destruct (pairs_lookup (λ j, Nn.LinearLayer (nn_Linear fw j h_size h_size))
              (λ _, Nn.ReLU) k) as [Hlen Hlook].
  split; [|split; [|split]].
  - rewrite length_app, Hlen. simpl. lia.
  - intros i Hi. destruct (Hlook i Hi) as [H1 H2].
    rewrite !lookup_app_l by lia. split; [|done].
    eexists. split; [exact H1|]. apply nn_Linear_features.
  - eexists. split; [|split].
    + rewrite lookup_app_r by lia. rewrite Hlen, Nat.sub_diag. done.
    + by rewrite last_snoc.
    + apply nn_Linear_features.
  - intros Hk. assert (k = 0) as -> by (unfold k; lia). done.
Qed.

(** ** Files in the way of the directories *)









